(** * req: caching, retrying HTTP fetch layer

    A shallow embedding of package [req] (cache-key derivation, cache
    short-circuit, retry recursion, batch fan-out, the two alternate
    fetch strategies and cache removal) together with the properties of
    its behaviour.

    The package talks to four collaborators: the file system (package
    [os]), the HTTP client ([req.Do]), a headless browser
    ([chromedp.Run]) and a subprocess ([exec.Command("curl")]).  The
    file system is modelled as a finite map from paths to nodes; the
    other three are oracles, indexed by the number of earlier
    invocations, so that a collaborator may answer differently on each
    call.  Every collaborator call is recorded in a chronological log.

    The world is sequential: the file system changes only through the
    calls of the package itself, and a write or removal that fails
    leaves it as it was. *)

From Stdlib Require Import ZArith Lia List Ascii String DecimalString.
From stdpp Require Import gmap strings list.
Import ListNotations.

(** ** crypto/md5 *)

Module MD5.
Local Open Scope Z_scope.

Definition mask32 : Z := 0xffffffff.
Definition add32 (x y : Z) : Z := Z.land (x + y) mask32.
Definition not32 (x : Z) : Z := Z.lxor x mask32.
Definition rotl32 (x : Z) (c : Z) : Z :=
  Z.land (Z.lor (Z.shiftl x c) (Z.shiftr x (32 - c))) mask32.

Definition shifts : list Z :=
  [7; 12; 17; 22; 7; 12; 17; 22; 7; 12; 17; 22; 7; 12; 17; 22;
   5;  9; 14; 20; 5;  9; 14; 20; 5;  9; 14; 20; 5;  9; 14; 20;
   4; 11; 16; 23; 4; 11; 16; 23; 4; 11; 16; 23; 4; 11; 16; 23;
   6; 10; 15; 21; 6; 10; 15; 21; 6; 10; 15; 21; 6; 10; 15; 21].

Definition sines : list Z :=
  [0xd76aa478; 0xe8c7b756; 0x242070db; 0xc1bdceee;
   0xf57c0faf; 0x4787c62a; 0xa8304613; 0xfd469501;
   0x698098d8; 0x8b44f7af; 0xffff5bb1; 0x895cd7be;
   0x6b901122; 0xfd987193; 0xa679438e; 0x49b40821;
   0xf61e2562; 0xc040b340; 0x265e5a51; 0xe9b6c7aa;
   0xd62f105d; 0x02441453; 0xd8a1e681; 0xe7d3fbc8;
   0x21e1cde6; 0xc33707d6; 0xf4d50d87; 0x455a14ed;
   0xa9e3e905; 0xfcefa3f8; 0x676f02d9; 0x8d2a4c8a;
   0xfffa3942; 0x8771f681; 0x6d9d6122; 0xfde5380c;
   0xa4beea44; 0x4bdecfa9; 0xf6bb4b60; 0xbebfbc70;
   0x289b7ec6; 0xeaa127fa; 0xd4ef3085; 0x04881d05;
   0xd9d4d039; 0xe6db99e5; 0x1fa27cf8; 0xc4ac5665;
   0xf4292244; 0x432aff97; 0xab9423a7; 0xfc93a039;
   0x655b59c3; 0x8f0ccc92; 0xffeff47d; 0x85845dd1;
   0x6fa87e4f; 0xfe2ce6e0; 0xa3014314; 0x4e0811a1;
   0xf7537e82; 0xbd3af235; 0x2ad7d2bb; 0xeb86d391].

Record digest := Digest { dA : Z; dB : Z; dC : Z; dD : Z }.

Definition init : digest :=
  Digest 0x67452301 0xefcdab89 0x98badcfe 0x10325476.

Definition word_at (l : list Z) (i : Z) : Z := nth (Z.to_nat i) l 0.

(** One of the 64 operations applied to a 16-word block [X]. *)
Definition step (X : list Z) (s : digest) (i : Z) : digest :=
  let '(Digest a b c d) := s in
  let '(f, g) :=
    if i <? 16 then (Z.lor (Z.land b c) (Z.land (not32 b) d), i)
    else if i <? 32 then
      (Z.lor (Z.land d b) (Z.land (not32 d) c), (5 * i + 1) mod 16)
    else if i <? 48 then (Z.lxor (Z.lxor b c) d, (3 * i + 5) mod 16)
    else (Z.lxor c (Z.lor b (not32 d)), (7 * i) mod 16) in
  let f' := add32 (add32 (add32 f a) (word_at sines i)) (word_at X g) in
  Digest d (add32 b (rotl32 f' (word_at shifts i))) b c.

Definition block (s : digest) (X : list Z) : digest :=
  let r := fold_left (step X) (map Z.of_nat (seq 0 64)) s in
  Digest (add32 (dA s) (dA r)) (add32 (dB s) (dB r))
         (add32 (dC s) (dC r)) (add32 (dD s) (dD r)).

Definition le_bytes (n : nat) (x : Z) : list Z :=
  map (fun k => Z.land (Z.shiftr x (8 * Z.of_nat k)) 0xff) (seq 0 n).

Fixpoint le_words (bs : list Z) : list Z :=
  match bs with
  | b0 :: b1 :: b2 :: b3 :: rest =>
      (b0 + Z.shiftl b1 8 + Z.shiftl b2 16 + Z.shiftl b3 24) :: le_words rest
  | _ => []
  end.

Definition pad (bs : list Z) : list Z :=
  let n := Z.of_nat (length bs) in
  bs ++ [0x80] ++ repeat 0 (Z.to_nat ((55 - n) mod 64)) ++ le_bytes 8 (8 * n).

Fixpoint blocks (fuel : nat) (ws : list Z) : list (list Z) :=
  match fuel, ws with
  | S k, _ :: _ => firstn 16 ws :: blocks k (skipn 16 ws)
  | _, _ => []
  end.

(** [md5.Sum]: the 16 bytes of the checksum. *)
Definition Sum (bs : list Z) : list Z :=
  let ws := le_words (pad bs) in
  let r := fold_left block (blocks (length ws) ws) init in
  le_bytes 4 (dA r) ++ le_bytes 4 (dB r) ++ le_bytes 4 (dC r) ++ le_bytes 4 (dD r).

End MD5.

(** ** fmt *)

Definition bytes_of_string (s : string) : list Z :=
  map (fun c => Z.of_N (N_of_ascii c)) (list_ascii_of_string s).

Definition hex_digit (d : Z) : ascii :=
  nth (Z.to_nat d) (list_ascii_of_string "0123456789abcdef") "0"%char.

(** [fmt.Sprintf("%x", bs)] on a byte array: two lower-case digits a byte. *)
Fixpoint hex_bytes (bs : list Z) : string :=
  match bs with
  | [] => EmptyString
  | b :: rest =>
      String (hex_digit (b / 16)%Z)
        (String (hex_digit (b mod 16)%Z) (hex_bytes rest))
  end.

(** [fmt.Sprintf("%d", n)] *)
Definition itoa (n : Z) : string := NilZero.string_of_int (Z.to_int n).

(** md5sum MD5值计算 *)
Definition md5sum (v : string) : string :=
  hex_bytes (MD5.Sum (bytes_of_string v)).

(** ** Data model *)

(** Package-level configuration variables. Durations are nanoseconds. *)
Record config := Config {
  defaultLimit : Z;
  defaultTimeout : Z;
  defaultCachePath : string;
  defaultRetryCount : Z;
  defaultRetrySleepTime : Z;
}.

(** The values the package starts with. *)
Definition defaults : config :=
  Config 10 10000000000 "" 3 200000000.

Definition SetLimit (limit : Z) (c : config) : config :=
  Config limit (defaultTimeout c) (defaultCachePath c)
    (defaultRetryCount c) (defaultRetrySleepTime c).

Definition SetRetryCount (retryCount : Z) (c : config) : config :=
  Config (defaultLimit c) (defaultTimeout c) (defaultCachePath c)
    retryCount (defaultRetrySleepTime c).

Definition SetRetrySleepTime (sleep : Z) (c : config) : config :=
  Config (defaultLimit c) (defaultTimeout c) (defaultCachePath c)
    (defaultRetryCount c) sleep.

Definition MethodGet : string := "GET".
Definition MethodPost : string := "POST".

Inductive errno := ENOENT | EACCES | EROFS.

Inductive error :=
  | PathError (op path : string) (e : errno)   (* package os *)
  | DoError (msg : string)                     (* req.Do *)
  | RunError (msg : string)                    (* chromedp.Run *)
  | ExitError (msg : string)                   (* exec.Cmd.Output *)
  | Errorf (msg : string)                      (* fmt.Errorf *)
  | withStack (cause : error).                 (* errors.WithStack *)

(** [errors.WithStack] keeps nil and wraps every other error. *)
Definition WithStack (err : option error) : option error :=
  match err with
  | None => None
  | Some e => Some (withStack e)
  end.

Definition IsNotExist (err : error) : bool :=
  match err with
  | PathError _ _ ENOENT => true
  | _ => false
  end.

(** What [os.Stat] can see at a path: a regular file holding bytes, or
    something that is there but cannot be read or overwritten (a
    directory, a file without permissions). *)
Inductive node :=
  | Regular (data : string)
  | Unreadable.

(** A read-only volume rejects every write and removal. *)
Record filesystem := Filesystem {
  files : gmap string node;
  readonly : bool;
}.

Inductive event :=
  | EvStat (name : string)
  | EvReadFile (name : string)
  | EvWriteFile (name data : string)
  | EvRemove (name : string)
  | EvDo (method url : string)
  | EvSleep (d : Z)
  | EvChrome (url : string)
  | EvCurl (args : list string).

Record world := World {
  fs : filesystem;
  log : list event;
}.

(** What [req.Do] hands back: an error, or a response with its status
    code and payload. *)
Inductive reply :=
  | Refused (msg : string)
  | Resp (StatusCode : Z) (Bytes : string).

(** What a browser run or a subprocess hands back. *)
Inductive outcome :=
  | Output (out : string)
  | Failure (msg : string).

Definition is_Do (e : event) : bool :=
  match e with EvDo _ _ => true | _ => false end.
Definition is_Stat (e : event) : bool :=
  match e with EvStat _ => true | _ => false end.
Definition is_ReadFile (e : event) : bool :=
  match e with EvReadFile _ => true | _ => false end.
Definition is_Sleep (e : event) : bool :=
  match e with EvSleep _ => true | _ => false end.
Definition is_Chrome (e : event) : bool :=
  match e with EvChrome _ => true | _ => false end.
Definition is_Curl (e : event) : bool :=
  match e with EvCurl _ => true | _ => false end.

Fixpoint count (p : event -> bool) (tr : list event) : nat :=
  match tr with
  | [] => 0
  | e :: rest => (if p e then 1 else 0) + count p rest
  end.

(** Number of [req.Do] invocations, and of cache-existence checks, in a log. *)
Definition transport_calls (tr : list event) : nat := count is_Do tr.
Definition cache_checks (tr : list event) : nat := count is_Stat tr.

(** ** State monad over the world *)

Definition M (A : Type) : Type := world -> A * world.

Definition ret {A} (a : A) : M A := fun w => (a, w).
Definition bind {A B} (m : M A) (k : A -> M B) : M B :=
  fun w => let '(a, w') := m w in k a w'.

Declare Scope go_scope.
Delimit Scope go_scope with go.
Notation "x <- c1 ;; c2" := (bind c1 (fun x => c2))
  (at level 100, c1 at next level, right associativity) : go_scope.
Notation "c1 ;; c2" := (bind c1 (fun _ => c2))
  (at level 100, right associativity) : go_scope.

Definition record (e : event) (w : world) : world :=
  World (fs w) (log w ++ [e]).

(** ** Package os *)

Definition os_Stat (name : string) : M (option error) := fun w =>
  (match files (fs w) !! name with
   | Some _ => None
   | None => Some (PathError "stat" name ENOENT)
   end, record (EvStat name) w).

Definition os_ReadFile (name : string) : M (string * option error) := fun w =>
  (match files (fs w) !! name with
   | Some (Regular data) => (data, None)
   | Some Unreadable => ("", Some (PathError "read" name EACCES))
   | None => ("", Some (PathError "open" name ENOENT))
   end, record (EvReadFile name) w).

Definition os_WriteFile (name data : string) : M (option error) := fun w =>
  let w1 := record (EvWriteFile name data) w in
  if readonly (fs w) then (Some (PathError "open" name EROFS), w1)
  else match files (fs w) !! name with
       | Some Unreadable => (Some (PathError "open" name EACCES), w1)
       | _ => (None,
               World (Filesystem (<[name := Regular data]> (files (fs w)))
                                 (readonly (fs w)))
                     (log w1))
       end.

Definition os_Remove (name : string) : M (option error) := fun w =>
  let w1 := record (EvRemove name) w in
  if readonly (fs w) then (Some (PathError "remove" name EROFS), w1)
  else match files (fs w) !! name with
       | None => (Some (PathError "remove" name ENOENT), w1)
       | Some _ => (None,
                    World (Filesystem (delete name (files (fs w)))
                                      (readonly (fs w)))
                          (log w1))
       end.

Definition time_Sleep (d : Z) : M unit := fun w => (tt, record (EvSleep d) w).

(** fileExist 是否存在 *)
Definition fileExist (name : string) : M bool :=
  (err <- os_Stat name ;;
   match err with
   | None => ret true
   | Some e => if IsNotExist e then ret false else ret false
   end)%go.

(** fileRemove 删除文件 *)
Definition fileRemove (name : string) : M (option error) :=
  (if (0 <? String.length name)%nat then
     there <- fileExist name ;;
     if there then os_Remove name else ret None
   else ret None)%go.

(** ** Vocabulary for logs and cache entries *)

(** The world after the cache-existence check of [doRequest]: the check
    is skipped when caching is disabled (empty name). *)
Definition probe (name : string) (w : world) : world :=
  if (name =? "")%string then w else record (EvStat name) w.

(** No entry can be found under [name]. *)
Definition absent (name : string) (f : filesystem) : Prop :=
  name = "" \/ files f !! name = None.

(** The result of [os.ReadFile] on a node. *)
Definition contents (name : string) (e : node) : string * option error :=
  match e with
  | Regular data => (data, None)
  | Unreadable => ("", Some (PathError "read" name EACCES))
  end.

(** The events of the cache-existence check, and of [k] failed attempts
    each followed by the pause before the next one. *)
Definition check_log (name : string) : list event :=
  if (name =? "")%string then [] else [EvStat name].

Fixpoint retry_log (name method url : string) (d : Z) (k : nat) : list event :=
  match k with
  | O => []
  | S k' =>
      check_log name ++ [EvDo method url; EvSleep d]
        ++ retry_log name method url d k'
  end.

(** The events of one [doRequest] call with caching enabled, as a
    sequence of attempts: a cache hit, a final transport invocation
    (refused, or out of retries), a successful one with its write-back,
    or a failed one followed by the pause and the next attempt. *)
Inductive attempts (name method url : string) : list event -> Prop :=
  | attempts_hit :
      attempts name method url [EvStat name; EvReadFile name]
  | attempts_last :
      attempts name method url [EvStat name; EvDo method url]
  | attempts_store body :
      attempts name method url
        [EvStat name; EvDo method url; EvWriteFile name body]
  | attempts_retry d tr :
      attempts name method url tr ->
      attempts name method url
        (EvStat name :: EvDo method url :: EvSleep d :: tr).

(** ** Further vocabulary *)

Definition is_WriteFile (e : event) : bool :=
  match e with EvWriteFile _ _ => true | _ => false end.
Definition is_Remove (e : event) : bool :=
  match e with EvRemove _ => true | _ => false end.

(** The events of package [os]. *)
Definition is_os (e : event) : bool :=
  match e with
  | EvStat _ | EvReadFile _ | EvWriteFile _ _ | EvRemove _ => true
  | _ => false
  end.

(** The characters [fmt.Sprintf("%x", ...)] prints. *)
Definition is_hex (c : ascii) : bool :=
  existsb (Ascii.eqb c) (list_ascii_of_string "0123456789abcdef").

(** ** func.go *)

Module Func.

(** What [io.Copy] gets out of a response body: all of it, or the bytes
    that came through before the copy stopped with an error. *)
Inductive stream :=
  | Whole (data : string)
  | Broken (sent : string) (msg : string).

(** What [http.Head] and [http.Get] hand back. *)
Inductive answer :=
  | Unreachable (msg : string)
  | Answer (StatusCode : Z) (Body : stream).

Inductive failure :=
  | HttpError (msg : string)
  | CreateError (path : string) (e : errno)
  | CopyError (msg : string).

Definition StatusOK : Z := 200.

(** [os.Create]: create the file, or truncate the one that is there. *)
Definition os_Create (name : string) (f : filesystem)
    : option failure * filesystem :=
  if readonly f then (Some (CreateError name EROFS), f)
  else match files f !! name with
       | Some Unreadable => (Some (CreateError name EACCES), f)
       | _ => (None, Filesystem (<[name := Regular ""]> (files f)) (readonly f))
       end.

(** [io.Copy] into the file just created. *)
Definition io_Copy (name : string) (body : stream) (f : filesystem)
    : option failure * filesystem :=
  match body with
  | Whole data =>
      (None, Filesystem (<[name := Regular data]> (files f)) (readonly f))
  | Broken sent msg =>
      (Some (CopyError msg),
       Filesystem (<[name := Regular sent]> (files f)) (readonly f))
  end.

(** Check 检查文件 *)
Definition Check (head : string -> answer) (url : string)
    : bool * option failure :=
  match head url with
  | Unreachable msg => (false, Some (HttpError msg))
  | Answer code _ => ((code =? StatusOK)%Z, None)
  end.

(** Download 下载文件 *)
Definition Download (get : string -> answer) (url fileName : string)
    (f : filesystem) : option failure * filesystem :=
  match get url with
  | Unreachable msg => (Some (HttpError msg), f)
  | Answer _ body =>
      match os_Create fileName f with
      | (Some err, f1) => (Some err, f1)
      | (None, f1) =>
          match io_Copy fileName body f1 with
          | (Some err, f2) => (Some err, f2)
          | (None, f2) => (None, f2)
          end
      end
  end.

End Func.

(** ** Sample inputs: integer arguments, scripted collaborators *)

Fixpoint join (sep : string) (l : list string) : string :=
  match l with
  | [] => ""
  | [s] => s
  | s :: rest => s +:+ sep +:+ join sep rest
  end.

(** JSON rendering of a slice of integers, e.g. [[1,2]]. *)
Definition marshal_ints (v : list Z) : string :=
  "[" +:+ join "," (map itoa v) +:+ "]".

Definition empty_fs : filesystem := Filesystem ∅ false.
Definition start (f : filesystem) : world := World f [].

Definition cached : config :=
  Config 10 10000000000 "/c" 3 200000000.

Definition always (code : Z) (body : string)
    : nat -> string -> string -> list Z -> reply :=
  fun _ _ _ _ => Resp code body.


Definition key_u : string := "/c/.7b774effe4a349c6dd82ad4f4f21d34c.GET.cache".

Definition holding (name data : string) : filesystem :=
  Filesystem {[ name := Regular data ]} false.

(** One 503, then 200 with the payload [page]. *)
Definition flaky : nat -> string -> string -> list Z -> reply :=
  fun k _ _ _ => match k with O => Resp 503 "" | _ => Resp 200 "page" end.

Definition key_u_post : string := "/c/.7b774effe4a349c6dd82ad4f4f21d34c.POST.cache".
Definition key_u_args : string := "/c/.3635fa5e62e6828b59638e4f7225beee.GET.cache".

(** Three entries for the url [u]: GET without arguments, POST, and GET
    with the argument list [[1]]. *)
Definition three_entries : filesystem :=
  Filesystem
    (<[key_u := Regular "a"]>
       (<[key_u_post := Regular "b"]> (<[key_u_args := Regular "c"]> ∅)))
    false.

(** Five URLs; the fetch of the one at index 2 always fails. *)
Definition five : list string := ["u0"; "u1"; "u2"; "u3"; "u4"].

Definition u2_down : nat -> string -> string -> list Z -> reply :=
  fun _ _ url _ =>
    if (url =? "u2")%string then Refused "connection refused"
    else Resp 200 ("body of " +:+ url).

Definition renders : nat -> string -> outcome := fun _ _ => Output "<body>page</body>".
Definition downloads : nat -> list string -> outcome := fun _ _ => Output "page".

(** A transport, a browser and a subprocess that always fail. *)
Definition refuses : nat -> string -> string -> list Z -> reply :=
  fun _ _ _ _ => Refused "timeout".
Definition crashes : nat -> string -> outcome := fun _ _ => Failure "no browser".
Definition exits : nat -> list string -> outcome := fun _ _ => Failure "exit status 6".

(** Answers to [http.Get]: a 404 page, a body that breaks off, no answer. *)
Definition serves404 : string -> Func.answer :=
  fun _ => Func.Answer 404 (Func.Whole "not found").
Definition drops : string -> Func.answer :=
  fun _ => Func.Answer 200 (Func.Broken "par" "unexpected EOF").
Definition down : string -> Func.answer :=
  fun _ => Func.Unreachable "no route to host".

(** ** The package *)

Section Req.

(** Request arguments ([v ...interface{}]) and their JSON rendering by
    [jsoniter.MarshalToString], whose error the caller drops. *)
Context {arg : Type}.
Variable MarshalToString : list arg -> string.

(** The collaborators; the index is the number of earlier invocations
    of the same collaborator. *)
Variable transport : nat -> string -> string -> list arg -> reply.
Variable browser : nat -> string -> outcome.
Variable curl : nat -> list string -> outcome.

Variable cfg : config.

Definition Do (method url : string) (v : list arg) : M reply := fun w =>
  (transport (transport_calls (log w)) method url v,
   record (EvDo method url) w).

Definition chromedp_Run (url : string) : M outcome := fun w =>
  (browser (count is_Chrome (log w)) url, record (EvChrome url) w).

Definition exec_Output (args : list string) : M outcome := fun w =>
  (curl (count is_Curl (log w)) args, record (EvCurl args) w).

(** cacheName 缓存名称 *)
Definition cacheName (method url : string) (v : list arg) : string :=
  if negb (defaultCachePath cfg =? "")%string then
    let args := if (0 <? length v)%nat then MarshalToString v else "" in
    defaultCachePath cfg +:+ "/." +:+ md5sum (url +:+ args)
      +:+ "." +:+ method +:+ ".cache"
  else "".

(** [doRequest] calls itself with [retryCount + 1] while
    [retryCount < defaultRetryCount]; [fuel] bounds the depth of that
    recursion and [doRequest] below supplies exactly the depth that
    is left, so the branch for spent fuel is never taken
    ([doRequest_eq]). *)
Fixpoint doRequest_fuel (fuel : nat) (method url : string)
    (retryCount : Z) (v : list arg) : M (string * option error) :=
  let name := cacheName method url v in
  (hit <- (if negb (name =? "")%string then fileExist name else ret false) ;;
   if hit then
     r <- os_ReadFile name ;;
     ret (fst r, WithStack (snd r))
   else
     rep <- Do method url v ;;
     match rep with
     | Refused msg => ret ("", WithStack (Some (DoError msg)))
     | Resp code body =>
         if negb (code =? 200)%Z then
           if (retryCount <? defaultRetryCount cfg)%Z then
             match fuel with
             | O => ret ("", None)
             | S fuel' =>
                 time_Sleep (defaultRetrySleepTime cfg) ;;
                 doRequest_fuel fuel' method url (retryCount + 1)%Z v
             end
           else
             ret ("", WithStack (Some (Errorf ("http status code: " +:+ itoa code))))
         else if negb (name =? "")%string then
           err <- os_WriteFile name body ;;
           match err with
           | Some e => ret ("", WithStack (Some e))
           | None => ret (body, None)
           end
         else ret (body, None)
     end)%go.

Definition doRequest (method url : string) (retryCount : Z)
    (v : list arg) : M (string * option error) :=
  doRequest_fuel (Z.to_nat (defaultRetryCount cfg - retryCount))
    method url retryCount v.

(** Get GET请求内容 *)
Definition Get (url : string) (v : list arg) : M (string * option error) :=
  doRequest MethodGet url 0 v.

(** Post POST请求内容 *)
Definition Post (url : string) (v : list arg) : M (string * option error) :=
  doRequest MethodPost url 0 v.

(** The two maps and the error group of one [BatchGet] call. *)
Record batch := Batch {
  resMap : gmap Z string;
  errMap : gmap Z string;
  group : option error;
}.

(** The function literal handed to [group.Go] for index [i].  Both
    branches assign to [resMap], the first one under [errMutex], the
    second under [resMutex]; both return nil. *)
Definition closure (i : nat) (url : string) (v : list arg) (b : batch)
    : M (batch * option error) :=
  (r <- Get url v ;;
   match snd r with
   | Some _ =>
       ret (Batch (<[Z.of_nat i := url]> (resMap b)) (errMap b) (group b), None)
   | None =>
       ret (Batch (<[Z.of_nat i := fst r]> (resMap b)) (errMap b) (group b), None)
   end)%go.

(** [errgroup.Group.Go]: run the task and keep the first non-nil error. *)
Definition group_Go (f : batch -> M (batch * option error)) (b : batch)
    : M batch :=
  (r <- f b ;;
   ret (Batch (resMap (fst r)) (errMap (fst r))
          (match group (fst r) with
           | Some first => Some first
           | None => snd r
           end)))%go.

Definition group_Wait (b : batch) : option error := group b.

(** The workers run to completion one after another, in the order
    [sched] (any order in which the goroutines may finish);
    [group.SetLimit] only bounds how many of them are in flight. *)
Fixpoint run (sched : list nat) (urls : list string) (v : list arg)
    (b : batch) : M batch :=
  match sched with
  | [] => ret b
  | i :: rest =>
      match urls !! i with
      | Some url =>
          (b' <- group_Go (closure i url v) b ;; run rest urls v b')%go
      | None => run rest urls v b
      end
  end.

(** BatchGet 批量请求内容 *)
Definition BatchGet (sched : list nat) (urls : list string) (v : list arg)
    : M (gmap Z string * gmap Z string * option error) :=
  (b <- run sched urls v (Batch ∅ ∅ None) ;;
   ret (resMap b, errMap b, WithStack (group_Wait b)))%go.

(** ChromeGet 模拟Chrome访问.  [fetch] is the function body below the
    cache lookup, reached whenever the lookup does not return.  The
    context only reaches the browser. *)
Definition ChromeGet (url : string) : M (string * option error) :=
  let name := cacheName MethodGet url [] in
  let fetch : M (string * option error) :=
    (out <- chromedp_Run url ;;
     match out with
     | Failure msg => ret ("", WithStack (Some (RunError msg)))
     | Output body =>
         if negb (name =? "")%string then
           err <- os_WriteFile name body ;;
           match err with
           | Some e => ret ("", WithStack (Some e))
           | None => ret (body, None)
           end
         else ret (body, None)
     end)%go in
  (if negb (name =? "")%string then
     there <- fileExist name ;;
     if there then
       r <- os_ReadFile name ;;
       match snd r with
       | None =>
           if (0 <? String.length (fst r))%nat then ret (fst r, None)
           else fetch
       | Some _ => fetch
       end
     else fetch
   else fetch)%go.

(** The arguments of the [curl] command line.  A header is listed in
    the order in which the [range] loop visits it. *)
Definition curl_args (url : string) (headers : list (list (string * string)))
    : list string :=
  let header := match headers with h :: _ => h | [] => [] end in
  fold_left (fun args kv => args ++ ["-H"; fst kv +:+ ": " +:+ snd kv])
    header [url].

(** CurlGet 模拟CURL请求 *)
Definition CurlGet (url : string) (headers : list (list (string * string)))
    : M (string * option error) :=
  let name := cacheName MethodGet url [] in
  let fetch : M (string * option error) :=
    (out <- exec_Output (curl_args url headers) ;;
     match out with
     | Failure msg => ret ("", WithStack (Some (ExitError msg)))
     | Output output =>
         if negb (name =? "")%string then
           err <- os_WriteFile name output ;;
           match err with
           | Some e => ret ("", WithStack (Some e))
           | None => ret (output, None)
           end
         else ret (output, None)
     end)%go in
  (if negb (name =? "")%string then
     there <- fileExist name ;;
     if there then
       r <- os_ReadFile name ;;
       match snd r with
       | None =>
           if (0 <? String.length (fst r))%nat then ret (fst r, None)
           else fetch
       | Some _ => fetch
       end
     else fetch
   else fetch)%go.

(** RemoveCache 删除缓存文件 *)
Definition RemoveCache (url : string) : M (option error) :=
  fileRemove (cacheName MethodGet url []).

(** *** The parts of the two alternate strategies, named *)

(** The write-back shared by the two alternate strategies. *)
Definition store (name body : string) : M (string * option error) :=
  (if negb (name =? "")%string then
     err <- os_WriteFile name body ;;
     match err with
     | Some e => ret ("", WithStack (Some e))
     | None => ret (body, None)
     end
   else ret (body, None))%go.

(** The cache lookup shared by the two alternate strategies: an entry
    is used only when it can be read and is not empty; otherwise
    [fetch] runs. *)
Definition lookup_or (name : string) (fetch : M (string * option error))
    : M (string * option error) :=
  (if negb (name =? "")%string then
     there <- fileExist name ;;
     if there then
       r <- os_ReadFile name ;;
       match snd r with
       | None =>
           if (0 <? String.length (fst r))%nat then ret (fst r, None)
           else fetch
       | Some _ => fetch
       end
     else fetch
   else fetch)%go.

(** The part of [ChromeGet] after the cache lookup: render the page
    and write the markup back. *)
Definition chrome_fetch (name url : string) : M (string * option error) :=
  (out <- chromedp_Run url ;;
   match out with
   | Failure msg => ret ("", WithStack (Some (RunError msg)))
   | Output body => store name body
   end)%go.

(** The part of [CurlGet] after the cache lookup. *)
Definition curl_fetch (name url : string)
    (headers : list (list (string * string))) : M (string * option error) :=
  (out <- exec_Output (curl_args url headers) ;;
   match out with
   | Failure msg => ret ("", WithStack (Some (ExitError msg)))
   | Output output => store name output
   end)%go.

(** The JSON text that enters the digest: empty without arguments. *)
Definition serialized (v : list arg) : string :=
  if (0 <? length v)%nat then MarshalToString v else "".

(** A single fetch is [Get] or [Post], each with its method. *)
Definition is_fetch (method : string)
    (fetch : string -> list arg -> M (string * option error)) : Prop :=
  (method = MethodGet /\ fetch = Get) \/ (method = MethodPost /\ fetch = Post).

(** What a fetch that ran out of retries looks like: the transport
    was invoked [defaultRetryCount + 1] more times and the error names
    the status code of the last reply. *)
Definition gave_up (method url : string) (v : list arg) (w : world)
    (r : string * option error * world) : Prop :=
  Z.of_nat (transport_calls (log (snd r)) - transport_calls (log w))
    = (defaultRetryCount cfg + 1)%Z /\
  exists code body,
    transport (transport_calls (log (snd r)) - 1) method url v = Resp code body /\
    fst r = ("", Some (withStack (Errorf ("http status code: " +:+ itoa code)))).

(** The attempt that ends a call which found no entry: the transport
    invocation, then the error, or the body and its write-back. *)
Definition last_attempt (method url : string) (v : list arg) (w : world)
    : string * option error * world :=
  let name := cacheName method url v in
  let w1 := record (EvDo method url) (probe name w) in
  match transport (transport_calls (log w)) method url v with
  | Refused msg => (("", Some (withStack (DoError msg))), w1)
  | Resp code body =>
      if negb (code =? 200)%Z then
        (("", Some (withStack (Errorf ("http status code: " +:+ itoa code)))), w1)
      else store name body w1
  end.


(** ** Logs *)

Lemma count_app p (l l' : list event) :
  count p (l ++ l') = count p l + count p l'.
Proof. induction l as [|e l IH]; simpl; [reflexivity | rewrite IH; lia]. Qed.

Lemma transport_calls_app (l l' : list event) :
  transport_calls (l ++ l') = transport_calls l + transport_calls l'.
Proof. apply count_app. Qed.

Lemma cache_checks_app (l l' : list event) :
  cache_checks (l ++ l') = cache_checks l + cache_checks l'.
Proof. apply count_app. Qed.

Lemma log_record e w : log (record e w) = log w ++ [e].
Proof. reflexivity. Qed.

Lemma fs_record e w : fs (record e w) = fs w.
Proof. reflexivity. Qed.

Lemma probe_log name w : probe name w = World (fs w) (log w ++ check_log name).
Proof.
  unfold probe, check_log. destruct (name =? "")%string.
  - rewrite app_nil_r. destruct w; reflexivity.
  - reflexivity.
Qed.

Lemma transport_calls_check_log name : transport_calls (check_log name) = 0.
Proof. unfold check_log. destruct (name =? "")%string; reflexivity. Qed.

Lemma transport_calls_retry_log name method url d k :
  transport_calls (retry_log name method url d k) = k.
Proof.
  induction k as [|k IH]; [reflexivity|].
  cbn [retry_log]. rewrite !transport_calls_app, IH, transport_calls_check_log.
  reflexivity.
Qed.

Lemma attempts_checks name method url tr :
  attempts name method url tr ->
  cache_checks tr = count is_Sleep tr + 1.
Proof.
  induction 1 as [| | body | d tr _ IH]; try reflexivity.
  unfold cache_checks in *. cbn [count is_Stat is_Sleep]. lia.
Qed.

Lemma attempts_retry_log name method url d k tr :
  name <> "" ->
  attempts name method url tr ->
  attempts name method url (retry_log name method url d k ++ tr).
Proof.
  intros Hname Htr. apply String.eqb_neq in Hname.
  induction k as [|k IH]; [exact Htr|].
  cbn [retry_log]. unfold check_log. rewrite Hname. cbn [app].
  apply attempts_retry. exact IH.
Qed.

Lemma log_os_WriteFile name body w :
  log (snd (os_WriteFile name body w)) = log w ++ [EvWriteFile name body].
Proof.
  unfold os_WriteFile. destruct (readonly (fs w)); [reflexivity|].
  destruct (files (fs w) !! name) as [[d|]|]; reflexivity.
Qed.

Lemma fs_probe name w : fs (probe name w) = fs w.
Proof. unfold probe. destruct (name =? "")%string; reflexivity. Qed.

Lemma transport_calls_probe name w :
  transport_calls (log (probe name w)) = transport_calls (log w).
Proof.
  unfold probe. destruct (name =? "")%string; [reflexivity|].
  rewrite log_record, transport_calls_app. apply Nat.add_0_r.
Qed.

Lemma count_ReadFile_check_log name : count is_ReadFile (check_log name) = 0.
Proof. unfold check_log. destruct (name =? "")%string; reflexivity. Qed.

Lemma count_ReadFile_retry_log name method url d k :
  count is_ReadFile (retry_log name method url d k) = 0.
Proof.
  induction k as [|k IH]; [reflexivity|].
  cbn [retry_log]. rewrite !count_app, IH, count_ReadFile_check_log.
  reflexivity.
Qed.

(** ** Strings and digests *)

Lemma length_append (a b : string) :
  String.length (a +:+ b) = String.length a + String.length b.
Proof. induction a as [|c a IH]; simpl; [reflexivity | rewrite IH; reflexivity]. Qed.

Lemma append_same_length (a b x y : string) :
  String.length a = String.length b ->
  a +:+ x = b +:+ y -> a = b /\ x = y.
Proof.
  revert b. induction a as [|c a IH]; intros [|c' b] Hlen Heq;
    simpl in *; try discriminate.
  - split; [reflexivity | assumption].
  - injection Heq as -> Heq. injection Hlen as Hlen.
    destruct (IH b Hlen Heq) as [-> ->]. split; reflexivity.
Qed.

Lemma append_cancel_r (a b s : string) : a +:+ s = b +:+ s -> a = b.
Proof.
  intros Heq. apply (append_same_length a b s s); [|assumption].
  apply (f_equal String.length) in Heq. rewrite !length_append in Heq. lia.
Qed.

Lemma length_hex_bytes bs : String.length (hex_bytes bs) = 2 * length bs.
Proof. induction bs as [|b bs IH]; simpl; [reflexivity | rewrite IH; lia]. Qed.

Lemma length_le_bytes n x : length (MD5.le_bytes n x) = n.
Proof. unfold MD5.le_bytes. rewrite length_map, length_seq. reflexivity. Qed.

Lemma length_Sum bs : length (MD5.Sum bs) = 16.
Proof. unfold MD5.Sum. rewrite !length_app, !length_le_bytes. reflexivity. Qed.

(** The digest is always 32 hexadecimal digits. *)
Lemma length_md5sum v : String.length (md5sum v) = 32.
Proof. unfold md5sum. rewrite length_hex_bytes, length_Sum. reflexivity. Qed.

(** ** The retry recursion *)

(** The recursion of the source: [doRequest] satisfies the equation
    that the Go function body reads, with the recursive call on
    [retryCount + 1]; the depth supplied is always enough. *)
Lemma doRequest_eq method url retryCount v :
  doRequest method url retryCount v =
  let name := cacheName method url v in
  (hit <- (if negb (name =? "")%string then fileExist name else ret false) ;;
   if hit then
     r <- os_ReadFile name ;;
     ret (fst r, WithStack (snd r))
   else
     rep <- Do method url v ;;
     match rep with
     | Refused msg => ret ("", WithStack (Some (DoError msg)))
     | Resp code body =>
         if negb (code =? 200)%Z then
           if (retryCount <? defaultRetryCount cfg)%Z then
             time_Sleep (defaultRetrySleepTime cfg) ;;
             doRequest method url (retryCount + 1)%Z v
           else
             ret ("", WithStack (Some (Errorf ("http status code: " +:+ itoa code))))
         else if negb (name =? "")%string then
           err <- os_WriteFile name body ;;
           match err with
           | Some e => ret ("", WithStack (Some e))
           | None => ret (body, None)
           end
         else ret (body, None)
     end)%go.
Proof.
  unfold doRequest.
  destruct (Z_lt_dec retryCount (defaultRetryCount cfg)) as [Hlt | Hge].
  - replace (Z.to_nat (defaultRetryCount cfg - retryCount))
      with (S (Z.to_nat (defaultRetryCount cfg - (retryCount + 1)))) by lia.
    reflexivity.
  - replace (Z.to_nat (defaultRetryCount cfg - retryCount)) with 0%nat by lia.
    apply Z.ltb_nlt in Hge. cbn [doRequest_fuel]. rewrite Hge. reflexivity.
Qed.

Lemma doRequest_hit method url retryCount v w e :
  cacheName method url v <> "" ->
  files (fs w) !! cacheName method url v = Some e ->
  doRequest method url retryCount v w =
  (let r := contents (cacheName method url v) e in (fst r, WithStack (snd r)),
   record (EvReadFile (cacheName method url v))
     (record (EvStat (cacheName method url v)) w)).
Proof.
  intros Hname He. rewrite doRequest_eq. cbv zeta.
  apply String.eqb_neq in Hname.
  unfold bind, fileExist, bind, os_Stat, os_ReadFile, ret.
  rewrite Hname. cbn [negb]. rewrite He. cbn [fs record].
  rewrite He. destruct e; reflexivity.
Qed.

Lemma doRequest_miss method url retryCount v w :
  absent (cacheName method url v) (fs w) ->
  doRequest method url retryCount v w =
  let name := cacheName method url v in
  let w1 := record (EvDo method url) (probe name w) in
  match transport (transport_calls (log w)) method url v with
  | Refused msg => (("", Some (withStack (DoError msg))), w1)
  | Resp code body =>
      if negb (code =? 200)%Z then
        if (retryCount <? defaultRetryCount cfg)%Z then
          doRequest method url (retryCount + 1)%Z v
            (record (EvSleep (defaultRetrySleepTime cfg)) w1)
        else
          (("", Some (withStack (Errorf ("http status code: " +:+ itoa code)))), w1)
      else if negb (name =? "")%string then
        (err <- os_WriteFile name body ;;
         match err with
         | Some e => ret ("", WithStack (Some e))
         | None => ret (body, None)
         end)%go w1
      else ((body, None), w1)
  end.
Proof.
  intros Habs. rewrite doRequest_eq. cbv zeta.
  assert (Hw : (hit <- (if negb (cacheName method url v =? "")%string
                        then fileExist (cacheName method url v)
                        else ret false) ;; ret hit)%go w
               = (false, probe (cacheName method url v) w)).
  { unfold probe, bind, fileExist, bind, os_Stat, ret.
    destruct Habs as [-> | Hnone].
    - reflexivity.
    - destruct (cacheName method url v =? "")%string; [reflexivity|].
      cbn [negb]. rewrite Hnone. reflexivity. }
  unfold bind, ret in Hw |- *.
  destruct ((if negb (cacheName method url v =? "")%string
             then fileExist (cacheName method url v)
             else fun w0 => (false, w0)) w) as [hit w0].
  injection Hw as -> ->.
  unfold Do at 1. rewrite transport_calls_probe.
  destruct (transport _ method url v) as [msg | code body]; [reflexivity|].
  destruct (negb (code =? 200)%Z).
  - destruct (retryCount <? defaultRetryCount cfg)%Z; reflexivity.
  - destruct (negb (cacheName method url v =? "")%string); reflexivity.
Qed.

Lemma cacheName_enabled method url v :
  defaultCachePath cfg <> "" -> cacheName method url v <> "".
Proof.
  intros Hpath. unfold cacheName.
  destruct (defaultCachePath cfg) as [|c p] eqn:E; [congruence|].
  simpl. discriminate.
Qed.

(** [k] consecutive non-200 replies within the retry budget are [k]
    rounds of the recursion; nothing but the log changes. *)
Lemma doRequest_retries method url v k : forall retryCount w,
  absent (cacheName method url v) (fs w) ->
  (forall j, j < k -> exists code body,
      transport (transport_calls (log w) + j) method url v = Resp code body
      /\ code <> 200%Z) ->
  (retryCount + Z.of_nat k <= defaultRetryCount cfg)%Z ->
  doRequest method url retryCount v w =
  doRequest method url (retryCount + Z.of_nat k)%Z v
    (World (fs w)
       (log w ++ retry_log (cacheName method url v) method url
                   (defaultRetrySleepTime cfg) k)).
Proof.
  induction k as [|k IH]; intros retryCount w Habs Hbad Hle.
  - cbn [retry_log]. rewrite app_nil_r, Z.add_0_r. destruct w; reflexivity.
  - rewrite doRequest_miss by assumption. cbv zeta.
    destruct (Hbad 0) as (code & body & Hrep & Hcode); [lia|].
    rewrite Nat.add_0_r in Hrep. rewrite Hrep.
    apply Z.eqb_neq in Hcode. rewrite Hcode. cbn [negb].
    replace (retryCount <? defaultRetryCount cfg)%Z with true
      by (symmetry; apply Z.ltb_lt; lia).
    rewrite IH.
    + f_equal; [lia|]. rewrite probe_log. unfold record. cbn [fs log].
      f_equal. rewrite <- !app_assoc. reflexivity.
    + cbn [fs record]. rewrite fs_probe. assumption.
    + intros j Hj. destruct (Hbad (S j)) as (c & b & Hr & Hc); [lia|].
      exists c, b. split; [|assumption]. rewrite <- Hr. f_equal.
      rewrite !log_record, !transport_calls_app, transport_calls_probe.
      cbn [transport_calls count is_Do]. lia.
    + lia.
Qed.

Lemma doRequest_gives_up method url v w :
  (0 <= defaultRetryCount cfg)%Z ->
  (forall k, exists code body,
      transport k method url v = Resp code body /\ code <> 200%Z) ->
  absent (cacheName method url v) (fs w) ->
  gave_up method url v w (doRequest method url 0 v w).
Proof.
  intros Hpos Hbad Habs.
  rewrite (doRequest_retries method url v (Z.to_nat (defaultRetryCount cfg)));
    [|assumption|intros j _; apply Hbad|lia].
  rewrite doRequest_miss by assumption. cbv zeta. cbn [fs log].
  set (n := transport_calls (log w)).
  set (k := Z.to_nat (defaultRetryCount cfg)).
  assert (Hcalls : transport_calls
            (log w ++ retry_log (cacheName method url v) method url
                        (defaultRetrySleepTime cfg) k) = n + k).
  { rewrite transport_calls_app, transport_calls_retry_log. reflexivity. }
  rewrite Hcalls.
  destruct (Hbad (n + k)) as (code & body & Hrep & Hcode). rewrite Hrep.
  apply Z.eqb_neq in Hcode. rewrite Hcode. cbn [negb].
  replace (0 + Z.of_nat k <? defaultRetryCount cfg)%Z with false
    by (symmetry; apply Z.ltb_ge; lia).
  unfold gave_up. cbn [fst snd].
  assert (Hend : transport_calls
            (log (record (EvDo method url)
               (probe (cacheName method url v)
                  (World (fs w)
                     (log w ++ retry_log (cacheName method url v) method url
                                 (defaultRetrySleepTime cfg) k)))))
            = n + k + 1).
  { rewrite log_record, transport_calls_app, transport_calls_probe.
    cbn [log]. rewrite Hcalls. reflexivity. }
  rewrite Hend. split; [lia|].
  exists code, body. split; [|reflexivity].
  replace (n + k + 1 - 1) with (n + k) by lia. assumption.
Qed.

(** One attempt that finds no entry either ends the call or hands
    over to the next attempt. *)
Lemma doRequest_step_absent method url retryCount v w :
  absent (cacheName method url v) (fs w) ->
  (exists tail,
      log (snd (doRequest method url retryCount v w)) =
        log w ++ check_log (cacheName method url v) ++ EvDo method url :: tail
      /\ (tail = [] \/
          exists body, cacheName method url v <> "" /\
                       tail = [EvWriteFile (cacheName method url v) body]))
  \/ ((retryCount < defaultRetryCount cfg)%Z /\
      doRequest method url retryCount v w =
      doRequest method url (retryCount + 1)%Z v
        (World (fs w)
           (log w ++ check_log (cacheName method url v)
                  ++ [EvDo method url; EvSleep (defaultRetrySleepTime cfg)]))).
Proof.
  intros Habs. rewrite doRequest_miss by assumption. cbv zeta.
  assert (Hlast :
    log (record (EvDo method url) (probe (cacheName method url v) w)) =
    log w ++ check_log (cacheName method url v) ++ [EvDo method url]).
  { rewrite log_record, probe_log. cbn [log]. rewrite <- app_assoc.
    reflexivity. }
  destruct (transport _ method url v) as [msg | code body].
  { left. exists []. split; [exact Hlast | left; reflexivity]. }
  destruct (negb (code =? 200)%Z).
  - destruct (Z.ltb_spec retryCount (defaultRetryCount cfg)) as [Hlt | Hge].
    + right. split; [assumption|]. f_equal.
      unfold record at 1. rewrite Hlast. cbn [fs record].
      rewrite fs_probe, <- !app_assoc. reflexivity.
    + left. exists []. split; [exact Hlast | left; reflexivity].
  - destruct (cacheName method url v =? "")%string eqn:Hname; cbn [negb].
    + left. exists []. split; [exact Hlast | left; reflexivity].
    + left. exists [EvWriteFile (cacheName method url v) body].
      unfold bind, ret.
      pose proof (log_os_WriteFile (cacheName method url v) body
                    (record (EvDo method url)
                       (probe (cacheName method url v) w))) as Hlog.
      destruct (os_WriteFile _ _ _) as [[e|] w2]; cbn [snd] in *.
      all: split; [rewrite Hlog, Hlast, <- !app_assoc; reflexivity |].
      all: right; exists body; split;
        [apply String.eqb_neq; assumption | reflexivity].
Qed.

(** A call that finds no entry: some failed attempts, then a last
    transport invocation, then at most the write-back. *)
Lemma doRequest_run_absent method url v : forall n retryCount w,
  n = Z.to_nat (defaultRetryCount cfg - retryCount) ->
  absent (cacheName method url v) (fs w) ->
  exists k tail,
    log (snd (doRequest method url retryCount v w)) =
      log w ++ retry_log (cacheName method url v) method url
                 (defaultRetrySleepTime cfg) k
            ++ check_log (cacheName method url v)
            ++ EvDo method url :: tail
    /\ (tail = [] \/
        exists body, cacheName method url v <> "" /\
                     tail = [EvWriteFile (cacheName method url v) body])
    /\ k <= n.
Proof.
  induction n as [|n IH]; intros retryCount w Hn Habs.
  all: destruct (doRequest_step_absent method url retryCount v w Habs)
         as [(tail & Hlog & Htail) | (Hlt & Hnext)];
    [exists 0, tail; cbn [retry_log app]; split; [exact Hlog |];
     split; [exact Htail | lia] |].
  - lia.
  - destruct (IH (retryCount + 1)%Z
                (World (fs w)
                   (log w ++ check_log (cacheName method url v)
                      ++ [EvDo method url;
                          EvSleep (defaultRetrySleepTime cfg)])))
      as (k & tail & Hlog & Htail & Hk); [lia | exact Habs |].
    exists (S k), tail. rewrite Hnext, Hlog.
    split; [|split; [assumption | lia]].
    cbn [log retry_log]. rewrite <- !app_assoc. reflexivity.
Qed.

(** ** A single fetch *)

Lemma is_fetch_doRequest method fetch :
  is_fetch method fetch -> fetch = fun url v => doRequest method url 0 v.
Proof. intros [[-> ->] | [-> ->]]; reflexivity. Qed.

(** C2. Against a transport that answers every invocation with a
    non-200 status, a single fetch ([Get] or [Post]) that finds caching
    disabled or no cache entry invokes the transport exactly
    [defaultRetryCount + 1] times and then returns the error that
    carries the status code of the last reply.  The configured retry
    count is a count: it is not negative. *)
Theorem retry_bound method fetch url v w :
  is_fetch method fetch ->
  (0 <= defaultRetryCount cfg)%Z ->
  (forall k, exists code body,
      transport k method url v = Resp code body /\ code <> 200%Z) ->
  absent (cacheName method url v) (fs w) ->
  gave_up method url v w (fetch url v w).
Proof.
  intros Hf Hpos Hbad Habs. rewrite (is_fetch_doRequest _ _ Hf).
  apply doRequest_gives_up; assumption.
Qed.

(** With a negative retry count the first non-200 reply is final. *)
Lemma no_retry_when_negative method url v w code body :
  (defaultRetryCount cfg <= 0)%Z ->
  absent (cacheName method url v) (fs w) ->
  transport (transport_calls (log w)) method url v = Resp code body ->
  code <> 200%Z ->
  doRequest method url 0 v w =
  (("", Some (withStack (Errorf ("http status code: " +:+ itoa code)))),
   record (EvDo method url) (probe (cacheName method url v) w)).
Proof.
  intros Hneg Habs Hrep Hcode. rewrite doRequest_miss by assumption.
  cbv zeta. rewrite Hrep. apply Z.eqb_neq in Hcode. rewrite Hcode.
  cbn [negb]. replace (0 <? defaultRetryCount cfg)%Z with false
    by (symmetry; apply Z.ltb_ge; lia).
  reflexivity.
Qed.

(** C3. With caching enabled and a cache entry (a regular file holding
    the bytes [d]) under the derived key, a fetch via [Get] or [Post]
    returns [d] and makes no transport invocation: the only events are
    the existence check and the read, so neither the network nor the
    retry pause is reached, and the file system is left as it was. *)
Theorem cache_short_circuit method fetch url v w d :
  is_fetch method fetch ->
  defaultCachePath cfg <> "" ->
  files (fs w) !! cacheName method url v = Some (Regular d) ->
  fst (fetch url v w) = (d, None) /\
  transport_calls (log (snd (fetch url v w))) = transport_calls (log w) /\
  log (snd (fetch url v w)) =
    log w ++ [EvStat (cacheName method url v);
              EvReadFile (cacheName method url v)] /\
  fs (snd (fetch url v w)) = fs w.
Proof.
  intros Hf Hpath Hentry. rewrite (is_fetch_doRequest _ _ Hf).
  rewrite (doRequest_hit _ _ _ _ _ _ (cacheName_enabled _ _ _ Hpath) Hentry).
  cbn [fst snd contents WithStack]. repeat split.
  - rewrite !log_record, !transport_calls_app. unfold transport_calls.
    simpl. lia.
  - rewrite !log_record, <- app_assoc. reflexivity.
Qed.

(** C7. A fetch whose first [k] replies ([k] within the retry budget)
    are non-200 and whose next reply is 200 with payload [body], with
    caching enabled and no entry yet, writes [body] under the derived
    key as its last action.  When that write fails the fetch returns
    the write error and an empty string, not the body; when it
    succeeds the fetch returns the body and the entry holds it. *)
Theorem success_is_persisted method fetch url v w k body :
  is_fetch method fetch ->
  defaultCachePath cfg <> "" ->
  files (fs w) !! cacheName method url v = None ->
  (Z.of_nat k <= defaultRetryCount cfg)%Z ->
  (forall j, j < k -> exists code b,
      transport (transport_calls (log w) + j) method url v = Resp code b
      /\ code <> 200%Z) ->
  transport (transport_calls (log w) + k) method url v = Resp 200 body ->
  let name := cacheName method url v in
  let w1 := World (fs w)
              (log w ++ retry_log name method url (defaultRetrySleepTime cfg) k
                     ++ [EvStat name; EvDo method url]) in
  match os_WriteFile name body w1 with
  | (Some e, w2) =>
      fetch url v w = (("", Some (withStack e)), w2) /\
      log w2 = log w1 ++ [EvWriteFile name body]
  | (None, w2) =>
      fetch url v w = ((body, None), w2) /\
      log w2 = log w1 ++ [EvWriteFile name body] /\
      files (fs w2) !! name = Some (Regular body)
  end.
Proof.
  intros Hf Hpath Hnone Hk Hbad Hok name w1.
  rewrite (is_fetch_doRequest _ _ Hf).
  assert (Hname : name <> "") by (apply cacheName_enabled; assumption).
  rewrite (doRequest_retries method url v k);
    [|right; assumption|assumption|lia].
  rewrite doRequest_miss by (right; assumption). cbv zeta. cbn [fs log].
  rewrite transport_calls_app, transport_calls_retry_log, Hok.
  cbn [Z.eqb Pos.eqb negb]. fold name.
  apply String.eqb_neq in Hname.
  rewrite probe_log. unfold check_log. rewrite Hname. cbn [negb fs log].
  unfold record. cbn [fs log]. rewrite <- !app_assoc. cbn [app].
  fold w1. unfold bind, os_WriteFile, ret. cbn [fs log].
  destruct (readonly (fs w1)) eqn:Hro.
  - split; reflexivity.
  - replace (files (fs w1) !! name) with (@None node) by (symmetry; exact Hnone).
    repeat split. cbn [fs files]. apply lookup_insert_eq.
Qed.

(** C4 (as the code has it). Every retry re-enters [doRequest] from
    its first line, so with caching enabled the cache-existence check
    is evaluated again before each transport invocation: the events of
    a single fetch are a sequence of attempts, each opening with the
    check of the derived key, and the check is made once for the first
    attempt and once more for every retry. *)
Theorem every_attempt_checks_cache method fetch url v w :
  is_fetch method fetch ->
  defaultCachePath cfg <> "" ->
  exists tr,
    log (snd (fetch url v w)) = log w ++ tr /\
    attempts (cacheName method url v) method url tr /\
    cache_checks tr = count is_Sleep tr + 1.
Proof.
  intros Hf Hpath. rewrite (is_fetch_doRequest _ _ Hf).
  pose proof (cacheName_enabled method url v Hpath) as Hname.
  assert (Hshape : exists tr,
    log (snd (doRequest method url 0 v w)) = log w ++ tr /\
    attempts (cacheName method url v) method url tr).
  { destruct (files (fs w) !! cacheName method url v) as [e|] eqn:He.
    - rewrite (doRequest_hit _ _ _ _ _ _ Hname He). cbn [snd].
      eexists. split; [|apply attempts_hit].
      rewrite !log_record, <- app_assoc. reflexivity.
    - destruct (doRequest_run_absent method url v _ 0%Z w eq_refl)
        as (k & tail & Hlog & Htail & _); [right; exact He|].
      eexists. split; [exact Hlog|].
      apply attempts_retry_log; [assumption|].
      unfold check_log. apply String.eqb_neq in Hname. rewrite Hname.
      destruct Htail as [-> | (body & _ & ->)];
        [apply attempts_last | apply attempts_store]. }
  destruct Hshape as (tr & Hlog & Htr).
  exists tr. repeat split; try assumption.
  eapply attempts_checks; eassumption.
Qed.

Lemma RemoveCache_absent url w :
  fst (RemoveCache url w) = None ->
  absent (cacheName MethodGet url [])
    (fs (snd (RemoveCache url w))).
Proof.
  unfold RemoveCache, fileRemove, absent.
  destruct (cacheName MethodGet url []) as [|c name] eqn:Hname.
  { intros _. left. reflexivity. }
  cbn [String.length Nat.ltb Nat.leb].
  unfold bind, fileExist, bind, os_Stat, os_Remove, ret.
  destruct (files (fs w) !! String c name) as [e|] eqn:He; cbn [fs record].
  - destruct (readonly (fs w)); [discriminate|]. rewrite He.
    intros _. right. cbn [snd fs files]. apply lookup_delete_eq.
  - intros _. right. exact He.
Qed.

(** A call that finds no entry invokes the transport and reads no
    cache file. *)
Lemma doRequest_absent_invokes method url v w :
  absent (cacheName method url v) (fs w) ->
  transport_calls (log w)
    < transport_calls (log (snd (doRequest method url 0 v w))) /\
  count is_ReadFile (log (snd (doRequest method url 0 v w)))
    = count is_ReadFile (log w).
Proof.
  intros Habs.
  destruct (doRequest_run_absent method url v _ 0%Z w eq_refl Habs)
    as (k & tail & Hlog & Htail & _).
  rewrite Hlog. split.
  - rewrite !transport_calls_app, transport_calls_retry_log,
      transport_calls_check_log.
    unfold transport_calls at 3. cbn [count is_Do]. lia.
  - rewrite !count_app, count_ReadFile_retry_log, count_ReadFile_check_log.
    destruct Htail as [-> | (body & _ & ->)]; cbn [count is_ReadFile]; lia.
Qed.

(** C6 (as the code has it). After [RemoveCache url] has returned
    nil, a [Get url] without arguments, issued in any later world with
    the same file system, does not read a cache entry and invokes the
    transport.  [RemoveCache] removes the key of [GET] without
    arguments only. *)
Theorem Get_after_RemoveCache url w w1 :
  fst (RemoveCache url w) = None ->
  fs w1 = fs (snd (RemoveCache url w)) ->
  transport_calls (log w1) < transport_calls (log (snd (Get url [] w1))) /\
  count is_ReadFile (log (snd (Get url [] w1))) = count is_ReadFile (log w1).
Proof.
  intros Hnil Hfs. apply RemoveCache_absent in Hnil. rewrite <- Hfs in Hnil.
  apply doRequest_absent_invokes. exact Hnil.
Qed.

Lemma cacheName_eq method url v :
  cacheName method url v =
  if negb (defaultCachePath cfg =? "")%string then
    defaultCachePath cfg +:+ "/." +:+ md5sum (url +:+ serialized v)
      +:+ "." +:+ method +:+ ".cache"
  else "".
Proof. reflexivity. Qed.

(** With caching enabled, equal keys mean equal methods and equal
    digests, and the other way round. *)
Lemma cacheName_same_key_iff m1 u1 v1 m2 u2 v2 :
  defaultCachePath cfg <> "" ->
  cacheName m1 u1 v1 = cacheName m2 u2 v2 <->
  m1 = m2 /\
  md5sum (u1 +:+ serialized v1) = md5sum (u2 +:+ serialized v2).
Proof.
  intros Hpath.
  rewrite !cacheName_eq. apply String.eqb_neq in Hpath. rewrite Hpath.
  cbn [negb]. split.
  - intros Heq. apply String.app_inj in Heq.
    apply (String.app_inj "/.") in Heq.
    apply append_same_length in Heq; [|rewrite !length_md5sum; reflexivity].
    destruct Heq as [Hsum Hrest]. split; [|exact Hsum].
    apply (String.app_inj ".") in Hrest.
    apply append_cancel_r in Hrest. exact Hrest.
  - intros [-> ->]. reflexivity.
Qed.


(** ** The batch *)

(** What one worker leaves behind: its index is bound in [resMap],
    whatever the fetch returned; the other two fields are untouched. *)
Lemma group_Go_closure i url v b w :
  let b' := fst (group_Go (closure i url v) b w) in
  dom (resMap b') = {[ Z.of_nat i ]} ∪ dom (resMap b) /\
  errMap b' = errMap b /\
  group b' = group b.
Proof.
  unfold group_Go, closure, bind, ret.
  destruct (Get url v w) as [[body [e|]] w']; cbn [fst snd resMap errMap group].
  all: split; [apply dom_insert_L | split; [reflexivity|]].
  all: destruct (group b); reflexivity.
Qed.

Lemma run_batch sched urls v : forall b w,
  let b' := fst (run sched urls v b w) in
  dom (resMap b') =
    list_to_set (Z.of_nat <$> List.filter (fun i => i <? length urls) sched)
      ∪ dom (resMap b) /\
  errMap b' = errMap b /\
  group b' = group b.
Proof.
  induction sched as [|i rest IH]; intros b w; cbn [run List.filter].
  { cbn [fmap list_fmap list_to_set ret fst].
    split; [rewrite (left_id_L ∅ (∪)); reflexivity | split; reflexivity]. }
  destruct (urls !! i) as [url|] eqn:Hurl.
  - assert (Hlt : (i <? length urls) = true)
      by (apply Nat.ltb_lt; eapply lookup_lt_Some; exact Hurl).
    rewrite Hlt. unfold bind.
    pose proof (group_Go_closure i url v b w) as Hone. cbv zeta in Hone.
    destruct (group_Go _ b w) as [b1 w1]. cbn [fst] in Hone.
    destruct Hone as (Hdom & Herr & Hgrp).
    specialize (IH b1 w1). cbv zeta in IH. destruct IH as (IHd & IHe & IHg).
    split; [|split; congruence].
    rewrite IHd, Hdom. cbn [fmap list_fmap list_to_set].
    rewrite (assoc_L (∪)), (comm_L (∪) _ {[Z.of_nat i]}). reflexivity.
  - assert (Hge : (i <? length urls) = false)
      by (apply Nat.ltb_ge; eapply lookup_ge_None; exact Hurl).
    rewrite Hge. apply IH.
Qed.

(** X14. Whatever the fetches return, whatever the schedule, [errMap]
    comes back empty. *)
Lemma BatchGet_errMap_empty sched urls v w :
  snd (fst (fst (BatchGet sched urls v w))) = ∅.
Proof.
  unfold BatchGet, bind, ret.
  pose proof (run_batch sched urls v (Batch ∅ ∅ None) w) as H.
  cbv zeta in H. destruct (run _ _ _ _ w) as [b w']. cbn [fst snd] in *.
  destruct H as (_ & -> & _). reflexivity.
Qed.

(** X15. When every worker runs once, the keys of [resMap] are exactly
    the indices of [urls]. *)
Lemma BatchGet_indices sched urls v w :
  sched ≡ₚ seq 0 (length urls) ->
  dom (fst (fst (fst (BatchGet sched urls v w)))) =
    list_to_set (Z.of_nat <$> seq 0 (length urls)).
Proof.
  intros Hperm. unfold BatchGet, bind, ret.
  pose proof (run_batch sched urls v (Batch ∅ ∅ None) w) as H.
  cbv zeta in H. destruct (run _ _ _ _ w) as [b w']. cbn [fst snd] in *.
  destruct H as (-> & _ & _). cbn [resMap]. rewrite dom_empty_L.
  apply set_eq. intros z.
  rewrite elem_of_union, !elem_of_list_to_set, !list_elem_of_fmap.
  split.
  - intros [(i & -> & Hi) | Hz]; [|apply not_elem_of_empty in Hz; contradiction].
    exists i. split; [reflexivity|].
    apply list_elem_of_In, filter_In in Hi. destruct Hi as [Hi _].
    apply list_elem_of_In. rewrite <- Hperm. apply list_elem_of_In.
    apply list_elem_of_In. exact Hi.
  - intros (i & -> & Hi). left. exists i. split; [reflexivity|].
    apply list_elem_of_In, filter_In. split.
    + apply list_elem_of_In. rewrite Hperm. exact Hi.
    + apply Nat.ltb_lt. apply list_elem_of_In, in_seq in Hi. lia.
Qed.

(** C8. For every schedule, list of URLs, arguments, transport and
    starting world, the third value [BatchGet] returns is nil: each
    worker returns nil, so [group.Wait] has no error to report. *)
Theorem BatchGet_aggregate_nil sched urls v w :
  snd (fst (BatchGet sched urls v w)) = None.
Proof.
  unfold BatchGet, bind, ret, group_Wait.
  pose proof (run_batch sched urls v (Batch ∅ ∅ None) w) as H.
  cbv zeta in H. destruct (run _ _ _ _ w) as [b w']. cbn [fst snd] in *.
  destruct H as (_ & _ & ->). reflexivity.
Qed.


(** ** The alternate strategies *)

Lemma ChromeGet_eq url :
  ChromeGet url =
  lookup_or (cacheName MethodGet url [])
    (chrome_fetch (cacheName MethodGet url []) url).
Proof. reflexivity. Qed.

Lemma CurlGet_eq url headers :
  CurlGet url headers =
  lookup_or (cacheName MethodGet url [])
    (curl_fetch (cacheName MethodGet url []) url headers).
Proof. reflexivity. Qed.

(** The three ways through the cache lookup of the alternate
    strategies. *)
Lemma lookup_or_served name fetch w d :
  name <> "" -> d <> "" ->
  files (fs w) !! name = Some (Regular d) ->
  lookup_or name fetch w =
  ((d, None), World (fs w) (log w ++ [EvStat name; EvReadFile name])).
Proof.
  intros Hname Hd He. apply String.eqb_neq in Hname.
  unfold lookup_or, bind, fileExist, bind, os_Stat, os_ReadFile, ret.
  rewrite Hname. cbn [negb]. rewrite He. cbn [fs record]. rewrite He.
  cbn [fst snd]. destruct d as [|c d]; [congruence|].
  cbn [String.length Nat.ltb Nat.leb]. unfold record. cbn [fs log].
  rewrite <- app_assoc. reflexivity.
Qed.

Lemma lookup_or_rejected name fetch w e :
  name <> "" -> e = Regular "" \/ e = Unreadable ->
  files (fs w) !! name = Some e ->
  lookup_or name fetch w =
  fetch (World (fs w) (log w ++ [EvStat name; EvReadFile name])).
Proof.
  intros Hname Hbad He. apply String.eqb_neq in Hname.
  unfold lookup_or, bind, fileExist, bind, os_Stat, os_ReadFile, ret.
  rewrite Hname. cbn [negb]. rewrite He. cbn [fs record]. rewrite He.
  unfold record. cbn [fs log]. rewrite <- app_assoc.
  destruct Hbad as [-> | ->]; reflexivity.
Qed.

Lemma lookup_or_absent name fetch w :
  absent name (fs w) -> lookup_or name fetch w = fetch (probe name w).
Proof.
  unfold lookup_or, probe, bind, fileExist, bind, os_Stat, ret.
  intros [-> | Hnone]; [reflexivity|].
  destruct (name =? "")%string; [reflexivity|].
  cbn [negb]. rewrite Hnone. reflexivity.
Qed.

Lemma store_written name body w :
  name <> "" -> readonly (fs w) = false -> files (fs w) !! name = None ->
  fst (store name body w) = (body, None) /\
  files (fs (snd (store name body w))) !! name = Some (Regular body).
Proof.
  intros Hname Hrw Hnone. apply String.eqb_neq in Hname.
  unfold store, bind, os_WriteFile, ret. rewrite Hname. cbn [negb].
  rewrite Hrw, Hnone. cbn [fst snd fs files].
  split; [reflexivity | apply lookup_insert_eq].
Qed.

Lemma count_Chrome_store name body w :
  count is_Chrome (log (snd (store name body w))) = count is_Chrome (log w).
Proof.
  unfold store, bind, ret. destruct (negb (name =? "")%string); [|reflexivity].
  pose proof (log_os_WriteFile name body w) as Hlog.
  destruct (os_WriteFile name body w) as [[e|] w2]; cbn [snd] in *;
    rewrite Hlog, count_app; cbn [count is_Chrome]; lia.
Qed.

Lemma count_Curl_store name body w :
  count is_Curl (log (snd (store name body w))) = count is_Curl (log w).
Proof.
  unfold store, bind, ret. destruct (negb (name =? "")%string); [|reflexivity].
  pose proof (log_os_WriteFile name body w) as Hlog.
  destruct (os_WriteFile name body w) as [[e|] w2]; cbn [snd] in *;
    rewrite Hlog, count_app; cbn [count is_Curl]; lia.
Qed.

(** The network part of each strategy invokes its collaborator once. *)
Lemma chrome_fetch_runs name url w :
  count is_Chrome (log (snd (chrome_fetch name url w)))
  = count is_Chrome (log w) + 1.
Proof.
  unfold chrome_fetch, bind, chromedp_Run, ret.
  destruct (browser _ url) as [body | msg]; cbn [snd].
  - rewrite count_Chrome_store, log_record, count_app. reflexivity.
  - rewrite log_record, count_app. reflexivity.
Qed.

Lemma curl_fetch_runs name url headers w :
  count is_Curl (log (snd (curl_fetch name url headers w)))
  = count is_Curl (log w) + 1.
Proof.
  unfold curl_fetch, bind, exec_Output, ret.
  destruct (curl _ _) as [body | msg]; cbn [snd].
  - rewrite count_Curl_store, log_record, count_app. reflexivity.
  - rewrite log_record, count_app. reflexivity.
Qed.

(** C9. On an entry that exists but is empty or cannot be read,
    [ChromeGet] and [CurlGet] go on to their network part, which
    invokes the browser, respectively the subprocess, once.  [Get] and
    [Post] on an existing entry return what the read returned (the
    data, empty or not, with a nil error, or an empty string with the
    read error) and do not invoke the transport. *)
Theorem empty_or_unreadable_entry method fetch url v headers w :
  is_fetch method fetch ->
  defaultCachePath cfg <> "" ->
  (forall e,
      e = Regular "" \/ e = Unreadable ->
      files (fs w) !! cacheName MethodGet url [] = Some e ->
      let name := cacheName MethodGet url [] in
      let w1 := World (fs w) (log w ++ [EvStat name; EvReadFile name]) in
      ChromeGet url w = chrome_fetch name url w1 /\
      count is_Chrome (log (snd (ChromeGet url w))) = count is_Chrome (log w) + 1 /\
      CurlGet url headers w = curl_fetch name url headers w1 /\
      count is_Curl (log (snd (CurlGet url headers w))) = count is_Curl (log w) + 1)
  /\
  (forall e,
      files (fs w) !! cacheName method url v = Some e ->
      let name := cacheName method url v in
      fetch url v w =
        (match e with
         | Regular data => (data, None)
         | Unreadable => ("", Some (withStack (PathError "read" name EACCES)))
         end,
         World (fs w) (log w ++ [EvStat name; EvReadFile name])) /\
      transport_calls (log (snd (fetch url v w))) = transport_calls (log w)).
Proof.
  intros Hf Hpath. split.
  - intros e Hbad He name w1.
    assert (Hname : name <> "") by (apply cacheName_enabled; assumption).
    assert (Hc : ChromeGet url w = chrome_fetch name url w1)
      by (rewrite ChromeGet_eq; apply lookup_or_rejected with (e := e);
          assumption).
    assert (Hu : CurlGet url headers w = curl_fetch name url headers w1)
      by (rewrite CurlGet_eq; apply lookup_or_rejected with (e := e);
          assumption).
    rewrite Hc, Hu, chrome_fetch_runs, curl_fetch_runs.
    subst w1. cbn [log]. rewrite !count_app. cbn [count is_Chrome is_Curl].
    repeat split; lia.
  - intros e He name. rewrite (is_fetch_doRequest _ _ Hf).
    rewrite (doRequest_hit _ _ _ _ _ _ (cacheName_enabled _ _ _ Hpath) He).
    fold name. cbn [snd]. split.
    + unfold record. cbn [fs log]. rewrite <- app_assoc.
      destruct e; reflexivity.
    + rewrite !log_record, !transport_calls_app. unfold transport_calls.
      cbn [count is_Do]. lia.
Qed.

Lemma count_Chrome_probe name w :
  count is_Chrome (log (probe name w)) = count is_Chrome (log w).
Proof.
  rewrite probe_log. cbn [log]. rewrite count_app. unfold check_log.
  destruct (name =? "")%string; cbn [count is_Chrome]; lia.
Qed.

Lemma count_Curl_probe name w :
  count is_Curl (log (probe name w)) = count is_Curl (log w).
Proof.
  rewrite probe_log. cbn [log]. rewrite count_app. unfold check_log.
  destruct (name =? "")%string; cbn [count is_Curl]; lia.
Qed.

(** C10 (as the code has it). [Get] without arguments, [ChromeGet],
    [CurlGet] and [RemoveCache] all work on the one key
    [cacheName MethodGet url []].  With caching enabled: a body that
    any of the three fetches on a miss is stored under that key; an
    entry under that key that is not empty is returned by all three
    without their collaborator being invoked; and once [RemoveCache]
    has returned nil the entry is gone and each of the three invokes
    its collaborator again. *)
Theorem shared_cache_entry url headers w :
  defaultCachePath cfg <> "" ->
  let name := cacheName MethodGet url [] in
  (files (fs w) !! name = None -> readonly (fs w) = false ->
   (forall body,
       transport (transport_calls (log w)) MethodGet url [] = Resp 200 body ->
       files (fs (snd (Get url [] w))) !! name = Some (Regular body)) /\
   (forall body,
       browser (count is_Chrome (log w)) url = Output body ->
       files (fs (snd (ChromeGet url w))) !! name = Some (Regular body)) /\
   (forall body,
       curl (count is_Curl (log w)) (curl_args url headers) = Output body ->
       files (fs (snd (CurlGet url headers w))) !! name = Some (Regular body)))
  /\
  (forall d, d <> "" -> files (fs w) !! name = Some (Regular d) ->
   let hit := ((d, None),
               World (fs w) (log w ++ [EvStat name; EvReadFile name])) in
   Get url [] w = hit /\ ChromeGet url w = hit /\ CurlGet url headers w = hit)
  /\
  (fst (RemoveCache url w) = None ->
   let w1 := snd (RemoveCache url w) in
   files (fs w1) !! name = None /\
   transport_calls (log w1) < transport_calls (log (snd (Get url [] w1))) /\
   count is_Chrome (log (snd (ChromeGet url w1))) = count is_Chrome (log w1) + 1 /\
   count is_Curl (log (snd (CurlGet url headers w1))) = count is_Curl (log w1) + 1).
Proof.
  intros Hpath name.
  assert (Hname : name <> "") by (apply cacheName_enabled; assumption).
  split; [|split].
  - intros Hnone Hrw. split; [|split]; intros body Hout.
    + unfold Get.
      rewrite doRequest_miss by (right; exact Hnone). cbv zeta.
      rewrite Hout. cbn [Z.eqb Pos.eqb negb]. fold name.
      apply String.eqb_neq in Hname. rewrite Hname. cbn [negb].
      unfold bind, os_WriteFile, ret. cbn [fs record]. rewrite fs_probe.
      rewrite Hrw, Hnone. cbn [snd fs files]. apply lookup_insert_eq.
    + rewrite ChromeGet_eq. fold name.
      rewrite lookup_or_absent by (right; exact Hnone).
      unfold chrome_fetch, bind, chromedp_Run.
      rewrite count_Chrome_probe, Hout.
      apply store_written; cbn [fs record]; rewrite ?fs_probe; assumption.
    + rewrite CurlGet_eq. fold name.
      rewrite lookup_or_absent by (right; exact Hnone).
      unfold curl_fetch, bind, exec_Output.
      rewrite count_Curl_probe, Hout.
      apply store_written; cbn [fs record]; rewrite ?fs_probe; assumption.
  - intros d Hd He hit. split; [|split].
    + unfold Get. rewrite (doRequest_hit _ _ _ _ _ _ Hname He).
      subst hit. fold name. unfold record. cbn [fs log contents fst snd WithStack].
      rewrite <- app_assoc. reflexivity.
    + apply lookup_or_served; assumption.
    + apply lookup_or_served; assumption.
  - intros Hnil w1. pose proof (RemoveCache_absent url w Hnil) as Habs.
    fold name in Habs. fold w1 in Habs.
    assert (Hnone : files (fs w1) !! name = None)
      by (destruct Habs as [Hempty | Hnone]; [contradiction | exact Hnone]).
    split; [exact Hnone | split; [|split]].
    + apply doRequest_absent_invokes. exact Habs.
    + rewrite ChromeGet_eq. fold name. rewrite lookup_or_absent by exact Habs.
      rewrite chrome_fetch_runs, count_Chrome_probe. reflexivity.
    + rewrite CurlGet_eq. fold name. rewrite lookup_or_absent by exact Habs.
      rewrite curl_fetch_runs, count_Curl_probe. reflexivity.
Qed.

(** ** Every run of a single fetch *)

Lemma world_eta w : World (fs w) (log w ++ []) = w.
Proof. rewrite app_nil_r. destruct w; reflexivity. Qed.

(** A call that finds no entry is some failed attempts, each answered
    with a non-200 status, followed by the last attempt. *)
Lemma doRequest_run method url v : forall n retryCount w,
  n = Z.to_nat (defaultRetryCount cfg - retryCount) ->
  absent (cacheName method url v) (fs w) ->
  exists k,
    k <= n /\
    (forall j, j < k -> exists code body,
        transport (transport_calls (log w) + j) method url v = Resp code body
        /\ code <> 200%Z) /\
    doRequest method url retryCount v w =
    last_attempt method url v
      (World (fs w)
         (log w ++ retry_log (cacheName method url v) method url
                     (defaultRetrySleepTime cfg) k)).
Proof.
  assert (Hstop : forall retryCount w,
    absent (cacheName method url v) (fs w) ->
    (forall code body,
        transport (transport_calls (log w)) method url v = Resp code body ->
        code <> 200%Z -> ~ (retryCount < defaultRetryCount cfg)%Z) ->
    doRequest method url retryCount v w = last_attempt method url v w).
  { intros retryCount w Habs Hno. rewrite doRequest_miss by assumption.
    unfold last_attempt, store. cbv zeta.
    destruct (transport _ method url v) as [msg | code body]; [reflexivity|].
    destruct (Z.eqb_spec code 200) as [-> | Hcode]; cbn [negb].
    - destruct (negb (cacheName method url v =? "")%string); reflexivity.
    - pose proof (Hno code body eq_refl Hcode) as Hnlt.
      apply Z.ltb_nlt in Hnlt. rewrite Hnlt. reflexivity. }
  induction n as [|n IH]; intros retryCount w Hn Habs.
  - exists 0. split; [lia|]. split; [intros j Hj; lia|].
    cbn [retry_log]. rewrite world_eta. apply Hstop; [assumption|].
    intros code body _ _. lia.
  - destruct (transport (transport_calls (log w)) method url v)
      as [msg | code body] eqn:Hrep.
    { exists 0. split; [lia|]. split; [intros j Hj; lia|].
      cbn [retry_log]. rewrite world_eta. apply Hstop; [assumption|].
      intros code body Heq. rewrite Hrep in Heq. discriminate. }
    destruct (Z.eq_dec code 200%Z) as [-> | Hcode].
    { exists 0. split; [lia|]. split; [intros j Hj; lia|].
      cbn [retry_log]. rewrite world_eta. apply Hstop; [assumption|].
      intros code' body' Heq Hne. rewrite Hrep in Heq.
      injection Heq as <- <-. congruence. }
    destruct (IH (retryCount + 1)%Z
                (record (EvSleep (defaultRetrySleepTime cfg))
                   (record (EvDo method url)
                      (probe (cacheName method url v) w))))
      as (k & Hk & Hbad & Hrun).
    + lia.
    + cbn [fs record]. rewrite fs_probe. assumption.
    + exists (S k). split; [lia|]. split.
      * intros [|j] Hj.
        -- exists code, body. rewrite Nat.add_0_r. split; assumption.
        -- destruct (Hbad j) as (c & b & Hr & Hc); [lia|].
           exists c, b. split; [|assumption]. rewrite <- Hr. f_equal.
           rewrite !log_record, !transport_calls_app, transport_calls_probe.
           cbn [transport_calls count is_Do]. lia.
      * rewrite doRequest_miss by assumption. cbv zeta. rewrite Hrep.
        apply Z.eqb_neq in Hcode. rewrite Hcode. cbn [negb].
        replace (retryCount <? defaultRetryCount cfg)%Z with true
          by (symmetry; apply Z.ltb_lt; lia).
        rewrite Hrun. f_equal. cbn [fs record]. rewrite fs_probe.
        f_equal. rewrite !log_record, probe_log. cbn [log retry_log].
        rewrite <- !app_assoc. reflexivity.
Qed.



Lemma count_WriteFile_check_log name : count is_WriteFile (check_log name) = 0.
Proof. unfold check_log. destruct (name =? "")%string; reflexivity. Qed.

Lemma count_WriteFile_retry_log name method url d k :
  count is_WriteFile (retry_log name method url d k) = 0.
Proof.
  induction k as [|k IH]; [reflexivity|].
  cbn [retry_log]. rewrite !count_app, IH, count_WriteFile_check_log.
  reflexivity.
Qed.

Lemma count_os_retry_log_disabled method url d k :
  count is_os (retry_log "" method url d k) = 0.
Proof.
  induction k as [|k IH]; [reflexivity|].
  cbn [retry_log check_log String.eqb app count is_os]. exact IH.
Qed.



(** Every call either finds an entry or finds none. *)
Lemma hit_or_absent name (f : filesystem) :
  (name <> "" /\ exists e, files f !! name = Some e) \/ absent name f.
Proof.
  destruct (String.eqb_spec name "") as [-> | Hname].
  - right. left. reflexivity.
  - destruct (files f !! name) as [e|] eqn:He.
    + left. split; [assumption | exists e; reflexivity].
    + right. right. exact He.
Qed.

(** What [store] leaves behind. *)
Lemma store_outcome name body w :
  log (snd (store name body w)) =
    log w ++ (if (name =? "")%string then [] else [EvWriteFile name body]) /\
  ((fst (store name body w) = (body, None) /\
    (name = "" /\ fs (snd (store name body w)) = fs w \/
     name <> "" /\
     fs (snd (store name body w)) =
       Filesystem (<[name := Regular body]> (files (fs w))) (readonly (fs w))))
   \/
   (exists e, fst (store name body w) = ("", Some (withStack e)) /\
              name <> "" /\ fs (snd (store name body w)) = fs w)).
Proof.
  unfold store, bind, os_WriteFile, ret.
  destruct (String.eqb_spec name "") as [-> | Hname]; cbn [negb].
  { cbn [fst snd]. rewrite app_nil_r. split; [reflexivity|].
    left. split; [reflexivity | left; split; reflexivity]. }
  destruct (readonly (fs w)).
  { cbn [fst snd]. split; [reflexivity|]. right. eexists.
    split; [reflexivity | split; [assumption | reflexivity]]. }
  destruct (files (fs w) !! name) as [[d|]|]; cbn [fst snd fs log].
  - split; [reflexivity|]. left. split; [reflexivity|]. right.
    split; [assumption | reflexivity].
  - split; [reflexivity|]. right. eexists.
    split; [reflexivity | split; [assumption | reflexivity]].
  - split; [reflexivity|]. left. split; [reflexivity|]. right.
    split; [assumption | reflexivity].
Qed.

(** The events of the last attempt, and what it does to the files. *)
Lemma last_attempt_log method url v w :
  exists tail,
    log (snd (last_attempt method url v w)) =
      log w ++ check_log (cacheName method url v) ++ EvDo method url :: tail /\
    (tail = [] \/
     exists body,
       transport (transport_calls (log w)) method url v = Resp 200 body /\
       cacheName method url v <> "" /\
       tail = [EvWriteFile (cacheName method url v) body]).
Proof.
  unfold last_attempt. cbv zeta.
  assert (Hdo :
    log (record (EvDo method url) (probe (cacheName method url v) w)) =
    log w ++ check_log (cacheName method url v) ++ [EvDo method url]).
  { rewrite log_record, probe_log. cbn [log]. rewrite <- app_assoc.
    reflexivity. }
  destruct (transport _ method url v) as [msg | code body].
  { exists []. split; [exact Hdo | left; reflexivity]. }
  destruct (Z.eqb_spec code 200) as [-> | Hcode]; cbn [negb].
  - destruct (store_outcome (cacheName method url v) body
                (record (EvDo method url)
                   (probe (cacheName method url v) w))) as [Hlog _].
    rewrite Hlog, Hdo.
    destruct (String.eqb_spec (cacheName method url v) "") as [Hname | Hname].
    + exists []. rewrite app_nil_r. split; [reflexivity | left; reflexivity].
    + exists [EvWriteFile (cacheName method url v) body].
      rewrite <- !app_assoc. split; [reflexivity|]. right. exists body.
      repeat split. assumption.
  - exists []. split; [exact Hdo | left; reflexivity].
Qed.

Lemma last_attempt_fs method url v w :
  fs (snd (last_attempt method url v w)) = fs w \/
  exists body,
    transport (transport_calls (log w)) method url v = Resp 200 body /\
    cacheName method url v <> "" /\
    fst (last_attempt method url v w) = (body, None) /\
    fs (snd (last_attempt method url v w)) =
      Filesystem (<[cacheName method url v := Regular body]> (files (fs w)))
        (readonly (fs w)).
Proof.
  unfold last_attempt. cbv zeta.
  destruct (transport _ method url v) as [msg | code body].
  { left. cbn [snd fs record]. apply fs_probe. }
  destruct (Z.eqb_spec code 200) as [-> | Hcode]; cbn [negb].
  - destruct (store_outcome (cacheName method url v) body
                (record (EvDo method url)
                   (probe (cacheName method url v) w)))
      as [_ [[Hres [[_ Hfs] | [Hname Hfs]]] | (e & _ & _ & Hfs)]];
      cbn [fs record] in Hfs; rewrite fs_probe in Hfs.
    + left. exact Hfs.
    + right. exists body. repeat split; assumption.
    + left. exact Hfs.
  - left. cbn [snd fs record]. apply fs_probe.
Qed.

(** A last attempt that returns a nil error got a 200 reply, returns
    its payload, and with caching enabled has stored it. *)
Lemma last_attempt_ok method url v w s :
  snd (fst (last_attempt method url v w)) = None ->
  fst (fst (last_attempt method url v w)) = s ->
  transport (transport_calls (log w)) method url v = Resp 200 s /\
  (cacheName method url v <> "" ->
   files (fs (snd (last_attempt method url v w))) !! cacheName method url v
   = Some (Regular s)).
Proof.
  unfold last_attempt. cbv zeta.
  destruct (transport _ method url v) as [msg | code body];
    [cbn; discriminate|].
  destruct (Z.eqb_spec code 200) as [-> | Hcode]; cbn [negb];
    [|cbn; discriminate].
  destruct (store_outcome (cacheName method url v) body
              (record (EvDo method url) (probe (cacheName method url v) w)))
    as [_ [[Hres [[Hname _] | [_ Hfs]]] | (e & Hres & _ & _)]];
    rewrite Hres; cbn [fst snd]; try discriminate.
  - intros _ <-. split; [reflexivity | intros Hne; contradiction].
  - intros _ <-. split; [reflexivity|]. intros _. rewrite Hfs.
    cbn [files]. apply lookup_insert_eq.
Qed.

(** X2. A transport error is final.  When the first [k] replies of a
    fetch that found no entry are non-200 ([k] within the retry budget)
    and the next invocation fails with an error, the fetch returns that
    error at once: [k + 1] invocations in all, nothing written, the file
    system as it was. *)
Theorem transport_error_is_final method fetch url v w k msg :
  is_fetch method fetch ->
  absent (cacheName method url v) (fs w) ->
  (Z.of_nat k <= defaultRetryCount cfg)%Z ->
  (forall j, j < k -> exists code b,
      transport (transport_calls (log w) + j) method url v = Resp code b
      /\ code <> 200%Z) ->
  transport (transport_calls (log w) + k) method url v = Refused msg ->
  fst (fetch url v w) = ("", Some (withStack (DoError msg))) /\
  transport_calls (log (snd (fetch url v w))) = transport_calls (log w) + k + 1 /\
  count is_WriteFile (log (snd (fetch url v w))) = count is_WriteFile (log w) /\
  fs (snd (fetch url v w)) = fs w.
Proof.
  intros Hf Habs Hk Hbad Hrep. rewrite (is_fetch_doRequest _ _ Hf).
  rewrite (doRequest_retries method url v k); [|assumption|assumption|lia].
  rewrite doRequest_miss by assumption. cbv zeta. cbn [fs log].
  rewrite transport_calls_app, transport_calls_retry_log, Hrep.
  cbn [fst snd fs record]. rewrite fs_probe. cbn [fs].
  repeat split.
  - rewrite log_record, transport_calls_app, transport_calls_probe. cbn [log].
    rewrite transport_calls_app, transport_calls_retry_log.
    change (transport_calls [EvDo method url]) with 1. lia.
  - rewrite log_record, probe_log. cbn [log].
    rewrite !count_app, count_WriteFile_retry_log, count_WriteFile_check_log.
    cbn [count is_WriteFile]. lia.
Qed.


(** X4. A single fetch leaves every file other than the one under its
    own key as it was, and does not change whether the volume is
    read-only. *)
Theorem fetch_touches_only_its_key method fetch url v w other :
  is_fetch method fetch ->
  other <> cacheName method url v ->
  files (fs (snd (fetch url v w))) !! other = files (fs w) !! other /\
  readonly (fs (snd (fetch url v w))) = readonly (fs w).
Proof.
  intros Hf Hother. rewrite (is_fetch_doRequest _ _ Hf).
  destruct (hit_or_absent (cacheName method url v) (fs w))
    as [[Hname [e He]] | Habs].
  - rewrite (doRequest_hit _ _ _ _ _ _ Hname He). split; reflexivity.
  - destruct (doRequest_run method url v _ 0%Z w eq_refl Habs)
      as (k & _ & _ & Hrun).
    rewrite Hrun.
    destruct (last_attempt_fs method url v
                (World (fs w)
                   (log w ++ retry_log (cacheName method url v) method url
                               (defaultRetrySleepTime cfg) k)))
      as [Hfs | (body & _ & _ & _ & Hfs)]; rewrite Hfs; cbn [fs files readonly].
    + split; reflexivity.
    + split; [|reflexivity]. apply lookup_insert_ne. congruence.
Qed.

(** X5. A fetch writes to the cache only after a 200 reply: against a
    transport that never answers 200 it performs no write, returns an
    error, and leaves the file system as it was. *)
Theorem fetch_writes_only_after_200 method fetch url v w :
  is_fetch method fetch ->
  absent (cacheName method url v) (fs w) ->
  (forall k body, transport k method url v <> Resp 200 body) ->
  count is_WriteFile (log (snd (fetch url v w))) = count is_WriteFile (log w) /\
  snd (fst (fetch url v w)) <> None /\
  fs (snd (fetch url v w)) = fs w.
Proof.
  intros Hf Habs Hno. rewrite (is_fetch_doRequest _ _ Hf).
  destruct (doRequest_run method url v _ 0%Z w eq_refl Habs)
    as (k & _ & _ & Hrun).
  rewrite Hrun.
  set (wk := World (fs w)
               (log w ++ retry_log (cacheName method url v) method url
                           (defaultRetrySleepTime cfg) k)).
  split; [|split].
  - destruct (last_attempt_log method url v wk) as (tail & Hlog & Htail).
    rewrite Hlog. destruct Htail as [-> | (body & Hrep & _)].
    + subst wk. cbn [log].
      rewrite !count_app, count_WriteFile_retry_log, count_WriteFile_check_log.
      cbn [count is_WriteFile]. lia.
    + exfalso. eapply Hno. exact Hrep.
  - intros Hnil.
    destruct (last_attempt_ok method url v wk _ Hnil eq_refl) as [Hrep _].
    eapply Hno. exact Hrep.
  - destruct (last_attempt_fs method url v wk) as [Hfs | (body & Hrep & _)].
    + exact Hfs.
    + exfalso. eapply Hno. exact Hrep.
Qed.

Lemma cacheName_disabled method url v :
  defaultCachePath cfg = "" -> cacheName method url v = "".
Proof. intros Hpath. unfold cacheName. rewrite Hpath. reflexivity. Qed.

(** X6. With caching disabled a single fetch makes no call into
    package [os] at all (no stat, read, write or removal) and leaves
    the file system as it was, whatever the transport answers. *)
Theorem fetch_without_cache_skips_os method fetch url v w :
  is_fetch method fetch ->
  defaultCachePath cfg = "" ->
  count is_os (log (snd (fetch url v w))) = count is_os (log w) /\
  fs (snd (fetch url v w)) = fs w.
Proof.
  intros Hf Hpath. rewrite (is_fetch_doRequest _ _ Hf).
  pose proof (cacheName_disabled method url v Hpath) as Hname.
  assert (Habs : absent (cacheName method url v) (fs w)) by (left; exact Hname).
  destruct (doRequest_run method url v _ 0%Z w eq_refl Habs)
    as (k & _ & _ & Hrun).
  rewrite Hrun.
  set (wk := World (fs w)
               (log w ++ retry_log (cacheName method url v) method url
                           (defaultRetrySleepTime cfg) k)).
  split.
  - destruct (last_attempt_log method url v wk) as (tail & Hlog & Htail).
    rewrite Hlog. destruct Htail as [-> | (body & _ & Hne & _)];
      [|contradiction].
    subst wk. cbn [log]. rewrite Hname.
    rewrite !count_app, count_os_retry_log_disabled.
    cbn [check_log String.eqb count is_os]. lia.
  - destruct (last_attempt_fs method url v wk) as [Hfs | (body & _ & Hne & _)];
      [exact Hfs | contradiction].
Qed.

(** X7. With caching enabled, a fetch that returns a nil error leaves
    the returned string stored under its key, and every later fetch of
    the same request on that file system returns the same string
    without invoking the transport. *)
Theorem fetch_success_is_cached method fetch url v w s :
  is_fetch method fetch ->
  defaultCachePath cfg <> "" ->
  fst (fetch url v w) = (s, None) ->
  files (fs (snd (fetch url v w))) !! cacheName method url v = Some (Regular s) /\
  forall w2, fs w2 = fs (snd (fetch url v w)) ->
    fst (fetch url v w2) = (s, None) /\
    transport_calls (log (snd (fetch url v w2))) = transport_calls (log w2).
Proof.
  intros Hf Hpath Hres.
  pose proof (cacheName_enabled method url v Hpath) as Hname.
  assert (Hstored :
    files (fs (snd (fetch url v w))) !! cacheName method url v
    = Some (Regular s)).
  { rewrite (is_fetch_doRequest _ _ Hf) in Hres |- *. cbv beta in Hres |- *.
    destruct (hit_or_absent (cacheName method url v) (fs w))
      as [[_ [e He]] | Habs].
    - rewrite (doRequest_hit _ _ _ _ _ _ Hname He) in Hres |- *.
      cbn [fst snd fs record] in Hres |- *. destruct e as [d|].
      + cbn in Hres. injection Hres as <-. exact He.
      + cbn in Hres. discriminate.
    - destruct (doRequest_run method url v _ 0%Z w eq_refl Habs)
        as (k & _ & _ & Hrun).
      rewrite Hrun in Hres |- *.
      eapply last_attempt_ok; [rewrite Hres; reflexivity
                              | rewrite Hres; reflexivity | exact Hname]. }
  split; [exact Hstored|]. intros w2 Hfs. rewrite <- Hfs in Hstored.
  rewrite (is_fetch_doRequest _ _ Hf). cbv beta.
  rewrite (doRequest_hit _ _ _ _ _ _ Hname Hstored).
  cbn [fst snd contents WithStack]. split; [reflexivity|].
  rewrite !log_record, !transport_calls_app. unfold transport_calls.
  cbn [count is_Do]. lia.
Qed.

(** ** More on the alternate strategies *)

(** The cache lookup of the alternate strategies either returns a
    readable, non-empty entry or runs [fetch] after the lookup's own
    events. *)
Lemma lookup_or_cases name fetch w :
  (exists d, d <> "" /\ files (fs w) !! name = Some (Regular d) /\
             lookup_or name fetch w =
             ((d, None), World (fs w) (log w ++ [EvStat name; EvReadFile name])))
  \/
  (exists pre, (pre = check_log name \/ pre = [EvStat name; EvReadFile name]) /\
               lookup_or name fetch w = fetch (World (fs w) (log w ++ pre))).
Proof.
  destruct (hit_or_absent name (fs w)) as [[Hname [e He]] | Habs].
  - destruct e as [d|].
    + destruct (String.eqb_spec d "") as [-> | Hd].
      * right. eexists. split; [right; reflexivity|].
        apply lookup_or_rejected with (e := Regular ""); auto.
      * left. exists d. repeat split; try assumption.
        apply lookup_or_served; assumption.
    + right. eexists. split; [right; reflexivity|].
      apply lookup_or_rejected with (e := Unreadable); auto.
  - right. exists (check_log name). split; [left; reflexivity|].
    rewrite lookup_or_absent by assumption. rewrite probe_log. reflexivity.
Qed.

Lemma count_lookup_events p name pre :
  (forall n, p (EvStat n) = false) -> (forall n, p (EvReadFile n) = false) ->
  pre = check_log name \/ pre = [EvStat name; EvReadFile name] ->
  count p pre = 0.
Proof.
  intros Hs Hr [-> | ->].
  - unfold check_log. destruct (name =? "")%string; cbn [count];
      rewrite ?Hs; reflexivity.
  - cbn [count]. rewrite Hs, Hr. reflexivity.
Qed.

(** X8. [ChromeGet] does not retry.  When the next run of the browser
    fails, [ChromeGet] either is served from a readable, non-empty
    entry without a browser run, or runs the browser once and returns
    its error; in both cases it writes nothing and leaves the file
    system as it was. *)
Theorem ChromeGet_failure_is_final url w msg :
  browser (count is_Chrome (log w)) url = Failure msg ->
  let r := ChromeGet url w in
  fs (snd r) = fs w /\
  count is_WriteFile (log (snd r)) = count is_WriteFile (log w) /\
  ((fst r = ("", Some (withStack (RunError msg))) /\
    count is_Chrome (log (snd r)) = count is_Chrome (log w) + 1)
   \/
   (exists d, d <> "" /\
      files (fs w) !! cacheName MethodGet url [] = Some (Regular d) /\
      fst r = (d, None) /\
      count is_Chrome (log (snd r)) = count is_Chrome (log w))).
Proof.
  intros Hfail r. subst r. rewrite ChromeGet_eq.
  destruct (lookup_or_cases (cacheName MethodGet url [])
              (chrome_fetch (cacheName MethodGet url []) url) w)
    as [(d & Hd & He & ->) | (pre & Hpre & ->)].
  - cbn [fst snd fs log]. split; [reflexivity|].
    rewrite !count_app. cbn [count is_WriteFile is_Chrome].
    split; [lia|]. right. exists d. repeat split; try assumption. lia.
  - unfold chrome_fetch, bind, chromedp_Run. cbn [log].
    rewrite count_app, (count_lookup_events is_Chrome (cacheName MethodGet url []) pre), Nat.add_0_r, Hfail
      by (first [assumption | intros; reflexivity]).
    cbn [ret fst snd fs record log]. split; [reflexivity|].
    rewrite !count_app, (count_lookup_events is_WriteFile (cacheName MethodGet url []) pre),
      (count_lookup_events is_Chrome (cacheName MethodGet url []) pre) by (first [assumption | intros; reflexivity]).
    cbn [count is_WriteFile is_Chrome]. split; [lia|]. left.
    split; [reflexivity | lia].
Qed.

(** X9. [CurlGet] does not retry.  When the next run of the
    subprocess fails, [CurlGet] either is served from a readable,
    non-empty entry without a subprocess, or runs the subprocess once
    and returns its error; in both cases it writes nothing and leaves
    the file system as it was. *)
Theorem CurlGet_failure_is_final url headers w msg :
  curl (count is_Curl (log w)) (curl_args url headers) = Failure msg ->
  let r := CurlGet url headers w in
  fs (snd r) = fs w /\
  count is_WriteFile (log (snd r)) = count is_WriteFile (log w) /\
  ((fst r = ("", Some (withStack (ExitError msg))) /\
    count is_Curl (log (snd r)) = count is_Curl (log w) + 1)
   \/
   (exists d, d <> "" /\
      files (fs w) !! cacheName MethodGet url [] = Some (Regular d) /\
      fst r = (d, None) /\
      count is_Curl (log (snd r)) = count is_Curl (log w))).
Proof.
  intros Hfail r. subst r. rewrite CurlGet_eq.
  destruct (lookup_or_cases (cacheName MethodGet url [])
              (curl_fetch (cacheName MethodGet url []) url headers) w)
    as [(d & Hd & He & ->) | (pre & Hpre & ->)].
  - cbn [fst snd fs log]. split; [reflexivity|].
    rewrite !count_app. cbn [count is_WriteFile is_Curl].
    split; [lia|]. right. exists d. repeat split; try assumption. lia.
  - unfold curl_fetch, bind, exec_Output. cbn [log].
    rewrite count_app, (count_lookup_events is_Curl (cacheName MethodGet url []) pre), Nat.add_0_r, Hfail
      by (first [assumption | intros; reflexivity]).
    cbn [ret fst snd fs record log]. split; [reflexivity|].
    rewrite !count_app, (count_lookup_events is_WriteFile (cacheName MethodGet url []) pre),
      (count_lookup_events is_Curl (cacheName MethodGet url []) pre) by (first [assumption | intros; reflexivity]).
    cbn [count is_WriteFile is_Curl]. split; [lia|]. left.
    split; [reflexivity | lia].
Qed.

(** X10. With caching disabled [ChromeGet] and [CurlGet] make no call
    into package [os] and leave the file system as it was; each runs
    its collaborator exactly once. *)
Theorem alternates_without_cache_skip_os url headers w :
  defaultCachePath cfg = "" ->
  (count is_os (log (snd (ChromeGet url w))) = count is_os (log w) /\
   fs (snd (ChromeGet url w)) = fs w /\
   count is_Chrome (log (snd (ChromeGet url w))) = count is_Chrome (log w) + 1)
  /\
  (count is_os (log (snd (CurlGet url headers w))) = count is_os (log w) /\
   fs (snd (CurlGet url headers w)) = fs w /\
   count is_Curl (log (snd (CurlGet url headers w))) = count is_Curl (log w) + 1).
Proof.
  intros Hpath.
  pose proof (cacheName_disabled MethodGet url [] Hpath) as Hname.
  rewrite ChromeGet_eq, CurlGet_eq, Hname.
  rewrite !lookup_or_absent by (left; reflexivity).
  cbn [probe String.eqb].
  unfold chrome_fetch, curl_fetch, bind, chromedp_Run, exec_Output, store.
  cbn [String.eqb negb].
  split.
  - destruct (browser _ url) as [body | msg];
      cbn [ret fst snd fs record log]; rewrite !count_app;
      cbn [count is_os is_Chrome]; repeat split; lia.
  - destruct (curl _ _) as [body | msg];
      cbn [ret fst snd fs record log]; rewrite !count_app;
      cbn [count is_os is_Curl]; repeat split; lia.
Qed.

Lemma fold_left_curl_args (header : list (string * string)) : forall acc,
  fold_left (fun args kv => args ++ ["-H"; fst kv +:+ ": " +:+ snd kv])
    header acc
  = acc ++ flat_map (fun kv => ["-H"; fst kv +:+ ": " +:+ snd kv]) header.
Proof.
  induction header as [|kv header IH]; intros acc; cbn [fold_left flat_map].
  - rewrite app_nil_r. reflexivity.
  - rewrite IH, <- app_assoc. reflexivity.
Qed.

(** X11. The [curl] command line is the url followed by one
    [-H "key: value"] pair for each entry of the first header map, in
    the order of the loop; its length is one plus twice the number of
    entries; header maps after the first are ignored. *)
Theorem curl_args_flat url headers :
  curl_args url headers =
    url :: flat_map (fun kv => ["-H"; fst kv +:+ ": " +:+ snd kv])
             (hd [] headers) /\
  length (curl_args url headers) = 1 + 2 * length (hd [] headers) /\
  curl_args url headers = curl_args url [hd [] headers].
Proof.
  assert (Heq : forall hs, curl_args url hs =
            url :: flat_map (fun kv => ["-H"; fst kv +:+ ": " +:+ snd kv])
                     (hd [] hs)).
  { intros hs. unfold curl_args. rewrite fold_left_curl_args.
    destruct hs; reflexivity. }
  split; [apply Heq|]. split.
  - rewrite Heq. cbn [length]. f_equal.
    induction (hd [] headers) as [|kv h IH]; [reflexivity|].
    cbn [flat_map length app]. rewrite IH. lia.
  - rewrite !Heq. reflexivity.
Qed.

(** ** More on cache removal *)

(** Removing what is not there: nil, and [os.Remove] is not called. *)
Lemma fileRemove_absent name w :
  absent name (fs w) -> fileRemove name w = (None, probe name w).
Proof.
  unfold fileRemove, probe, bind, fileExist, bind, os_Stat, ret.
  intros [-> | Hnone]; [reflexivity|].
  destruct name as [|c name]; [reflexivity|].
  cbn [String.length Nat.ltb Nat.leb String.eqb]. rewrite Hnone. reflexivity.
Qed.

(** X12. [RemoveCache] leaves every file other than the one under the
    key of [GET url] without arguments as it was, whether it succeeds
    or not, and does not change whether the volume is read-only. *)
Theorem RemoveCache_touches_only_its_key url w other :
  other <> cacheName MethodGet url [] ->
  files (fs (snd (RemoveCache url w))) !! other = files (fs w) !! other /\
  readonly (fs (snd (RemoveCache url w))) = readonly (fs w).
Proof.
  intros Hother. unfold RemoveCache, fileRemove.
  destruct (cacheName MethodGet url []) as [|c name]; [split; reflexivity|].
  cbn [String.length Nat.ltb Nat.leb].
  unfold bind, fileExist, bind, os_Stat, os_Remove, ret.
  destruct (files (fs w) !! String c name) as [e|] eqn:He; cbn [fs record].
  - destruct (readonly (fs w)) eqn:Hro; [split; [reflexivity | exact Hro]|].
    rewrite He. cbn [snd fs files readonly].
    split; [apply lookup_delete_ne; congruence | reflexivity].
  - split; reflexivity.
Qed.

(** X13. Removal can be repeated.  Once [RemoveCache url] has returned
    nil, calling it again on that file system returns nil too, does
    not call [os.Remove], and changes nothing. *)
Theorem RemoveCache_twice url w w1 :
  fst (RemoveCache url w) = None ->
  fs w1 = fs (snd (RemoveCache url w)) ->
  fst (RemoveCache url w1) = None /\
  count is_Remove (log (snd (RemoveCache url w1))) = count is_Remove (log w1) /\
  fs (snd (RemoveCache url w1)) = fs w1.
Proof.
  intros Hnil Hfs. apply RemoveCache_absent in Hnil. rewrite <- Hfs in Hnil.
  unfold RemoveCache at 1 2 3. rewrite fileRemove_absent by assumption.
  cbn [fst snd]. rewrite fs_probe, probe_log. cbn [log].
  rewrite count_app. unfold check_log.
  destruct (cacheName MethodGet url [] =? "")%string; cbn [count is_Remove];
    repeat split; lia.
Qed.

(** ** More on the batch *)




(** X17. For an empty list of URLs [BatchGet] returns two empty maps
    and a nil error and leaves the world as it was: no file is touched
    and no request is made, whatever the schedule. *)
Theorem BatchGet_no_urls sched v w :
  BatchGet sched [] v w = ((∅, ∅, None), w).
Proof.
  unfold BatchGet, bind, ret.
  assert (Hrun : forall b, run sched [] v b w = (b, w)).
  { induction sched as [|i rest IH]; intros b; cbn [run]; [reflexivity|].
    rewrite lookup_nil. apply IH. }
  rewrite Hrun. reflexivity.
Qed.

End Req.

(** C5 (as the code has it). The key is a function of the cache root,
    the method, the url and the arguments alone.  With caching enabled
    two requests get the same key exactly when their methods are equal
    and the digests of url followed by the serialized arguments are
    equal; so requests with different methods never share a key, while
    requests that differ in url or arguments share one whenever those
    digests coincide. *)
Theorem cacheName_same_key {arg : Type} (MarshalToString : list arg -> string)
    (cfg : config) m1 u1 v1 m2 u2 v2 :
  defaultCachePath cfg <> "" ->
  (forall cfg' : config,
      defaultCachePath cfg' = defaultCachePath cfg ->
      cacheName MarshalToString cfg' m1 u1 v1
      = cacheName MarshalToString cfg m1 u1 v1) /\
  (cacheName MarshalToString cfg m1 u1 v1 = cacheName MarshalToString cfg m2 u2 v2
   <->
   m1 = m2 /\
   md5sum (u1 +:+ serialized MarshalToString v1)
   = md5sum (u2 +:+ serialized MarshalToString v2)).
Proof.
  intros Hpath. split.
  - intros cfg' Hsame. unfold cacheName. rewrite Hsame. reflexivity.
  - apply cacheName_same_key_iff. exact Hpath.
Qed.

(** ** More on digests *)

Lemma hex_digit_is_hex d : (0 <= d < 16)%Z -> is_hex (hex_digit d) = true.
Proof.
  intros Hd. unfold hex_digit.
  assert (Hn : Z.to_nat d < 16) by lia.
  destruct (Z.to_nat d) as [|n]; [reflexivity|].
  do 15 (destruct n as [|n]; [reflexivity|]). lia.
Qed.

Lemma le_bytes_range n x :
  Forall (fun b => 0 <= b < 256)%Z (MD5.le_bytes n x).
Proof.
  unfold MD5.le_bytes. apply List.Forall_forall. intros b Hin.
  apply in_map_iff in Hin. destruct Hin as (k & <- & _).
  change 0xff%Z with (Z.ones 8). rewrite Z.land_ones by lia.
  apply Z.mod_pos_bound. lia.
Qed.

Lemma Sum_range bs : Forall (fun b => 0 <= b < 256)%Z (MD5.Sum bs).
Proof.
  unfold MD5.Sum. cbv zeta. rewrite !Forall_app.
  repeat split; apply le_bytes_range.
Qed.

Lemma hex_bytes_is_hex bs :
  Forall (fun b => 0 <= b < 256)%Z bs ->
  Forall (fun c => is_hex c = true) (list_ascii_of_string (hex_bytes bs)).
Proof.
  induction 1 as [|b bs Hb _ IH]; cbn [hex_bytes list_ascii_of_string].
  - constructor.
  - constructor; [|constructor; [|exact IH]]; apply hex_digit_is_hex.
    + split; [apply Z.div_pos; lia | apply Z.div_lt_upper_bound; lia].
    + apply Z.mod_pos_bound. lia.
Qed.

(** X1. The digest [md5sum] returns is always 32 characters long and
    every one of them is a lower-case hexadecimal digit, so a cache
    file name holds no path separator beyond the ones written out in
    [cacheName]. *)
Theorem md5sum_hex_digits v :
  String.length (md5sum v) = 32 /\
  Forall (fun c => is_hex c = true) (list_ascii_of_string (md5sum v)).
Proof.
  split; [apply length_md5sum|].
  unfold md5sum. apply hex_bytes_is_hex, Sum_range.
Qed.

(** ** func.go: Download *)

Lemma Create_ok name f :
  readonly f = false -> files f !! name <> Some Unreadable ->
  Func.os_Create name f =
  (None, Filesystem (<[name := Regular ""]> (files f)) (readonly f)).
Proof.
  intros Hrw Hnode. unfold Func.os_Create. rewrite Hrw.
  destruct (files f !! name) as [[d|]|]; congruence.
Qed.

(** X18. [Download] does not look at the status code.  Whatever the
    status of the answer, when its body comes through whole and the
    file can be created, [Download] returns nil, the file holds exactly
    the body (whatever it held before), and no other file changes. *)
Theorem Download_stores_any_status get url fileName f code data :
  get url = Func.Answer code (Func.Whole data) ->
  readonly f = false ->
  files f !! fileName <> Some Unreadable ->
  let r := Func.Download get url fileName f in
  fst r = None /\
  files (snd r) !! fileName = Some (Regular data) /\
  forall other, other <> fileName -> files (snd r) !! other = files f !! other.
Proof.
  intros Hget Hrw Hnode r. subst r. unfold Func.Download.
  rewrite Hget, (Create_ok _ _ Hrw Hnode). cbn [Func.io_Copy fst snd files].
  split; [reflexivity|]. split; [apply lookup_insert_eq|].
  intros other Hother. rewrite !lookup_insert_ne by congruence. reflexivity.
Qed.

(** X19. [Download] truncates before it copies.  When the copy of the
    body stops with an error, [Download] returns that error and the
    file holds only the bytes that came through: what it held before is
    gone.  No other file changes. *)
Theorem Download_broken_copy get url fileName f code sent msg :
  get url = Func.Answer code (Func.Broken sent msg) ->
  readonly f = false ->
  files f !! fileName <> Some Unreadable ->
  let r := Func.Download get url fileName f in
  fst r = Some (Func.CopyError msg) /\
  files (snd r) !! fileName = Some (Regular sent) /\
  forall other, other <> fileName -> files (snd r) !! other = files f !! other.
Proof.
  intros Hget Hrw Hnode r. subst r. unfold Func.Download.
  rewrite Hget, (Create_ok _ _ Hrw Hnode). cbn [Func.io_Copy fst snd files].
  split; [reflexivity|]. split; [apply lookup_insert_eq|].
  intros other Hother. rewrite !lookup_insert_ne by congruence. reflexivity.
Qed.

(** X20. When the request fails, or the file cannot be created,
    [Download] returns an error and leaves the file system exactly as
    it was: an existing file is not truncated. *)
Theorem Download_fails_before_create get url fileName f :
  (exists msg, get url = Func.Unreachable msg) \/
  readonly f = true \/
  files f !! fileName = Some Unreadable ->
  fst (Func.Download get url fileName f) <> None /\
  snd (Func.Download get url fileName f) = f.
Proof.
  intros Hcase. unfold Func.Download.
  destruct (get url) as [msg | code body];
    [split; [discriminate | reflexivity]|].
  destruct Hcase as [[msg Hmsg] | [Hro | Hnode]]; [discriminate| |].
  - unfold Func.os_Create. rewrite Hro. split; [discriminate | reflexivity].
  - unfold Func.os_Create. rewrite Hnode.
    destruct (readonly f); split; try discriminate; reflexivity.
Qed.

(** ** Checks on concrete inputs *)

Example md5sum_empty : md5sum "" = "d41d8cd98f00b204e9800998ecf8427e".
Proof. vm_compute. reflexivity. Qed.

Example md5sum_abc : md5sum "abc" = "900150983cd24fb0d6963f7d28e17f72".
Proof. vm_compute. reflexivity. Qed.

Example md5sum_two_blocks :
  md5sum "12345678901234567890123456789012345678901234567890123456789012345678901234567890"
  = "57edf4a22be3c955ac49da2e2107b67a".
Proof. vm_compute. reflexivity. Qed.

Example cacheName_u :
  cacheName marshal_ints cached "GET" "u" []
  = "/c/.7b774effe4a349c6dd82ad4f4f21d34c.GET.cache".
Proof. vm_compute. reflexivity. Qed.

Example one_attempt_when_retry_count_negative :
  let r := Get marshal_ints (always 500 "") (SetRetryCount (-1) cached) "u" []
             (start empty_fs) in
  fst r = ("", Some (withStack (Errorf "http status code: 500"))) /\
  transport_calls (log (snd r)) = 1.
Proof. vm_compute. auto. Qed.

Example Get_retries_then_succeeds :
  let r := Get marshal_ints flaky cached "u" [] (start empty_fs) in
  fst r = ("page", None) /\
  transport_calls (log (snd r)) = 2 /\
  files (fs (snd r)) !! key_u = Some (Regular "page").
Proof. vm_compute. auto. Qed.

Example key_u_args_is_derived :
  cacheName marshal_ints cached MethodGet "u" [1%Z] = key_u_args /\
  cacheName marshal_ints cached MethodPost "u" [] = key_u_post.
Proof. vm_compute. auto. Qed.

Example Get_200_writes_cache :
  let r := Get marshal_ints (always 200 "hello") cached "u" [] (start empty_fs) in
  fst r = ("hello", None) /\
  log (snd r) =
    [EvStat "/c/.7b774effe4a349c6dd82ad4f4f21d34c.GET.cache";
     EvDo "GET" "u";
     EvWriteFile "/c/.7b774effe4a349c6dd82ad4f4f21d34c.GET.cache" "hello"] /\
  files (fs (snd r)) !! "/c/.7b774effe4a349c6dd82ad4f4f21d34c.GET.cache"
    = Some (Regular "hello").
Proof. vm_compute. auto. Qed.

(** ** Instances of the theorems at concrete inputs *)

Lemma retry_bound_witness :
  gave_up (always 500 "") cached MethodGet "u" [] (start empty_fs)
    (Get marshal_ints (always 500 "") cached "u" [] (start empty_fs)).
Proof.
  apply (retry_bound marshal_ints (always 500 "") cached MethodGet).
  - left. split; reflexivity.
  - vm_compute. discriminate.
  - intros k. exists 500%Z, "". split; [reflexivity | lia].
  - right. vm_compute. reflexivity.
Defined.

Lemma cache_short_circuit_witness :
  let r := Get marshal_ints (always 200 "fresh") cached "u" []
             (start (holding key_u "stored")) in
  fst r = ("stored", None) /\
  transport_calls (log (snd r)) = 0 /\
  log (snd r) = [EvStat key_u; EvReadFile key_u] /\
  fs (snd r) = holding key_u "stored".
Proof.
  apply (cache_short_circuit marshal_ints (always 200 "fresh") cached MethodGet).
  - left. split; reflexivity.
  - vm_compute. discriminate.
  - vm_compute. reflexivity.
Defined.

Lemma success_is_persisted_witness :
  exists w2,
    Get marshal_ints flaky cached "u" [] (start (Filesystem ∅ true))
    = (("", Some (withStack (PathError "open" key_u EROFS))), w2) /\
    log w2 = [EvStat key_u; EvDo "GET" "u"; EvSleep 200000000;
              EvStat key_u; EvDo "GET" "u"; EvWriteFile key_u "page"].
Proof.
  eexists.
  apply (success_is_persisted marshal_ints flaky cached MethodGet _ "u" []
           (start (Filesystem ∅ true)) 1 "page").
  - left. split; reflexivity.
  - vm_compute. discriminate.
  - vm_compute. reflexivity.
  - vm_compute. discriminate.
  - intros j Hj. exists 503%Z, "". replace j with 0 by lia.
    split; [reflexivity | lia].
  - reflexivity.
Defined.

Lemma every_attempt_checks_cache_witness :
  exists tr,
    log (snd (Get marshal_ints flaky cached "u" [] (start empty_fs))) = [] ++ tr /\
    attempts key_u MethodGet "u" tr /\
    cache_checks tr = count is_Sleep tr + 1.
Proof.
  apply (every_attempt_checks_cache marshal_ints flaky cached MethodGet _ "u" []
           (start empty_fs)).
  - left. split; reflexivity.
  - vm_compute. discriminate.
Defined.

(** A retry consults the cache again: with three retries configured and
    a transport that always answers 500, the cache-existence check runs
    four times, once before each of the four transport invocations. *)
Lemma retry_checks_cache_again :
  let w := snd (Get marshal_ints (always 500 "") cached "u" [] (start empty_fs)) in
  log w = [EvStat key_u; EvDo "GET" "u"; EvSleep 200000000;
           EvStat key_u; EvDo "GET" "u"; EvSleep 200000000;
           EvStat key_u; EvDo "GET" "u"; EvSleep 200000000;
           EvStat key_u; EvDo "GET" "u"] /\
  cache_checks (log w) = 4 /\
  transport_calls (log w) = 4.
Proof. vm_compute. auto. Qed.

Lemma Get_after_RemoveCache_witness :
  let w1 := snd (RemoveCache marshal_ints cached "u" (start three_entries)) in
  transport_calls (log w1)
    < transport_calls (log (snd (Get marshal_ints (always 200 "fresh") cached "u" [] w1))) /\
  count is_ReadFile (log (snd (Get marshal_ints (always 200 "fresh") cached "u" [] w1)))
    = count is_ReadFile (log w1).
Proof.
  apply (Get_after_RemoveCache marshal_ints (always 200 "fresh") cached "u"
           (start three_entries)).
  - vm_compute. reflexivity.
  - reflexivity.
Defined.

(** Removal reaches one key only: after [RemoveCache "u"] has
    succeeded, a [Post] for [u] and a [Get] for [u] with arguments are
    still served from their own entries, without a transport
    invocation. *)
Lemma RemoveCache_keeps_other_entries :
  let gone := RemoveCache marshal_ints cached "u" (start three_entries) in
  let post := Post marshal_ints (always 200 "fresh") cached "u" [] (snd gone) in
  let get1 := Get marshal_ints (always 200 "fresh") cached "u" [1%Z] (snd gone) in
  fst gone = None /\
  files (fs (snd gone)) !! key_u = None /\
  fst post = ("b", None) /\ transport_calls (log (snd post)) = 0 /\
  fst get1 = ("c", None) /\ transport_calls (log (snd get1)) = 0.
Proof. vm_compute. repeat split. Qed.

Lemma cacheName_same_key_witness :
  (forall cfg' : config,
      defaultCachePath cfg' = defaultCachePath cached ->
      cacheName marshal_ints cfg' MethodGet "u" [] = cacheName marshal_ints cached MethodGet "u" []) /\
  (cacheName marshal_ints cached MethodGet "u" [] = cacheName marshal_ints cached MethodPost "u" [] <->
   MethodGet = MethodPost /\
   md5sum ("u" +:+ serialized marshal_ints []) = md5sum ("u" +:+ serialized marshal_ints [])).
Proof.
  apply (cacheName_same_key marshal_ints cached).
  vm_compute. discriminate.
Defined.

(** Different requests, one key: two requests that differ in url and
    in arguments get the same key with caching enabled (the url and the
    serialized arguments are concatenated without a separator), and with
    caching disabled requests that differ in everything get the same,
    empty, key. *)
Lemma cacheName_collision :
  ("x[1]", @nil Z) <> ("x", [1%Z]) /\
  cacheName marshal_ints cached MethodGet "x[1]" []
    = cacheName marshal_ints cached MethodGet "x" [1%Z] /\
  cacheName marshal_ints defaults MethodGet "a" []
    = cacheName marshal_ints defaults MethodPost "b" [2%Z].
Proof. split; [discriminate | split; reflexivity]. Qed.

(** C1 (the code departs from it). With the fetch at index 2 failing,
    [BatchGet] returns an empty error map; index 2 sits in the result
    map, bound to its URL.  No index is lost: the result map has all
    five. *)
Theorem BatchGet_failure_lands_in_resMap :
  let r := fst (BatchGet marshal_ints u2_down defaults [3; 0; 4; 2; 1] five []
                  (start empty_fs)) in
  snd (fst r) = ∅ /\
  snd (fst r) !! 2%Z = None /\
  fst (fst r) !! 2%Z = Some "u2" /\
  fst (fst r) =
    list_to_map [(0, "body of u0"); (1, "body of u1"); (2, "u2");
                 (3, "body of u3"); (4, "body of u4")]%Z /\
  snd r = None.
Proof. vm_compute. repeat split. Qed.

Lemma empty_or_unreadable_entry_witness :
  (let w1 := World (Filesystem {[ key_u := Unreadable ]} false)
               [EvStat key_u; EvReadFile key_u] in
   ChromeGet marshal_ints renders cached "u" (start (Filesystem {[ key_u := Unreadable ]} false))
     = chrome_fetch renders key_u "u" w1 /\
   count is_Chrome
     (log (snd (ChromeGet marshal_ints renders cached "u"
                  (start (Filesystem {[ key_u := Unreadable ]} false))))) = 1 /\
   CurlGet marshal_ints downloads cached "u" []
       (start (Filesystem {[ key_u := Unreadable ]} false))
     = curl_fetch downloads key_u "u" [] w1 /\
   count is_Curl
     (log (snd (CurlGet marshal_ints downloads cached "u" []
                  (start (Filesystem {[ key_u := Unreadable ]} false))))) = 1)
  /\
  (Get marshal_ints (always 200 "fresh") cached "u" []
     (start (Filesystem {[ key_u := Unreadable ]} false))
   = (("", Some (withStack (PathError "read" key_u EACCES))),
      World (Filesystem {[ key_u := Unreadable ]} false)
        [EvStat key_u; EvReadFile key_u]) /\
   transport_calls
     (log (snd (Get marshal_ints (always 200 "fresh") cached "u" []
                  (start (Filesystem {[ key_u := Unreadable ]} false))))) = 0).
Proof.
  pose proof (empty_or_unreadable_entry marshal_ints (always 200 "fresh")
                renders downloads cached MethodGet _ "u" [] []
                (start (Filesystem {[ key_u := Unreadable ]} false))
                (or_introl (conj eq_refl eq_refl))) as H.
  destruct H as [Halt Hget].
  - vm_compute. discriminate.
  - split.
    + apply (Halt Unreadable); [right; reflexivity | vm_compute; reflexivity].
    + apply (Hget Unreadable). vm_compute. reflexivity.
Defined.

Lemma shared_cache_entry_witness :
  let w := start (holding key_u "stored") in
  let hit := (("stored", None),
              World (holding key_u "stored") [EvStat key_u; EvReadFile key_u]) in
  Get marshal_ints (always 200 "fresh") cached "u" [] w = hit /\
  ChromeGet marshal_ints renders cached "u" w = hit /\
  CurlGet marshal_ints downloads cached "u" [] w = hit.
Proof.
  pose proof (shared_cache_entry marshal_ints (always 200 "fresh") renders
                downloads cached "u" [] (start (holding key_u "stored"))) as H.
  destruct H as (_ & Hserved & _).
  - vm_compute. discriminate.
  - apply (Hserved "stored"); [discriminate | vm_compute; reflexivity].
Defined.

(** An empty entry is not shared: the empty body of a 200 reply that
    [Get] has cached is served to a later [Get], but not to [ChromeGet]
    or [CurlGet], each of which invokes its collaborator and returns
    what that produced. *)
Lemma empty_body_is_not_shared :
  let w1 := snd (Get marshal_ints (always 200 "") cached "u" [] (start empty_fs)) in
  let get := Get marshal_ints (always 200 "") cached "u" [] w1 in
  let chrome := ChromeGet marshal_ints renders cached "u" w1 in
  let curl := CurlGet marshal_ints downloads cached "u" [] w1 in
  files (fs w1) !! key_u = Some (Regular "") /\
  fst get = ("", None) /\
  transport_calls (log (snd get)) = transport_calls (log w1) /\
  fst chrome = ("<body>page</body>", None) /\
  count is_Chrome (log (snd chrome)) = 1 /\
  fst curl = ("page", None) /\
  count is_Curl (log (snd curl)) = 1.
Proof. vm_compute. repeat split. Qed.

(** ** Instances of the further properties *)

Lemma transport_error_is_final_witness :
  let r := Get marshal_ints refuses cached "u" [] (start empty_fs) in
  fst r = ("", Some (withStack (DoError "timeout"))) /\
  transport_calls (log (snd r)) = 1 /\
  count is_WriteFile (log (snd r)) = 0 /\
  fs (snd r) = empty_fs.
Proof.
  apply (transport_error_is_final marshal_ints refuses cached MethodGet _ "u" []
           (start empty_fs) 0 "timeout").
  - left. split; reflexivity.
  - right. vm_compute. reflexivity.
  - vm_compute. discriminate.
  - intros j Hj. lia.
  - reflexivity.
Defined.


Lemma fetch_touches_only_its_key_witness :
  let r := Get marshal_ints (always 200 "fresh") cached "v" []
             (start three_entries) in
  files (fs (snd r)) !! key_u = files three_entries !! key_u /\
  readonly (fs (snd r)) = false.
Proof.
  apply (fetch_touches_only_its_key marshal_ints (always 200 "fresh") cached
           MethodGet _ "v" [] (start three_entries) key_u).
  - left. split; reflexivity.
  - vm_compute. discriminate.
Defined.

Lemma fetch_writes_only_after_200_witness :
  let r := Get marshal_ints (always 500 "oops") cached "u" [] (start empty_fs) in
  count is_WriteFile (log (snd r)) = 0 /\
  snd (fst r) <> None /\
  fs (snd r) = empty_fs.
Proof.
  apply (fetch_writes_only_after_200 marshal_ints (always 500 "oops") cached
           MethodGet _ "u" [] (start empty_fs)).
  - left. split; reflexivity.
  - right. vm_compute. reflexivity.
  - intros k body. discriminate.
Defined.

Lemma fetch_without_cache_skips_os_witness :
  let r := Get marshal_ints flaky defaults "u" [] (start three_entries) in
  count is_os (log (snd r)) = 0 /\ fs (snd r) = three_entries.
Proof.
  apply (fetch_without_cache_skips_os marshal_ints flaky defaults MethodGet _
           "u" [] (start three_entries)).
  - left. split; reflexivity.
  - reflexivity.
Defined.

Lemma fetch_success_is_cached_witness :
  let r := Get marshal_ints flaky cached "u" [] (start empty_fs) in
  files (fs (snd r)) !! cacheName marshal_ints cached MethodGet "u" []
    = Some (Regular "page") /\
  forall w2, fs w2 = fs (snd r) ->
    fst (Get marshal_ints flaky cached "u" [] w2) = ("page", None) /\
    transport_calls (log (snd (Get marshal_ints flaky cached "u" [] w2)))
      = transport_calls (log w2).
Proof.
  apply (fetch_success_is_cached marshal_ints flaky cached MethodGet _ "u" []
           (start empty_fs) "page").
  - left. split; reflexivity.
  - vm_compute. discriminate.
  - vm_compute. reflexivity.
Defined.

Lemma ChromeGet_failure_is_final_witness :
  let r := ChromeGet marshal_ints crashes cached "u" (start empty_fs) in
  fs (snd r) = empty_fs /\
  count is_WriteFile (log (snd r)) = 0 /\
  ((fst r = ("", Some (withStack (RunError "no browser"))) /\
    count is_Chrome (log (snd r)) = 0 + 1)
   \/
   (exists d, d <> "" /\
      files empty_fs !! cacheName marshal_ints cached MethodGet "u" []
        = Some (Regular d) /\
      fst r = (d, None) /\
      count is_Chrome (log (snd r)) = 0)).
Proof.
  apply (ChromeGet_failure_is_final marshal_ints crashes cached "u"
           (start empty_fs) "no browser").
  reflexivity.
Defined.

Lemma CurlGet_failure_is_final_witness :
  let r := CurlGet marshal_ints exits cached "u" [[("Accept", "*/*")]]
             (start empty_fs) in
  fs (snd r) = empty_fs /\
  count is_WriteFile (log (snd r)) = 0 /\
  ((fst r = ("", Some (withStack (ExitError "exit status 6"))) /\
    count is_Curl (log (snd r)) = 0 + 1)
   \/
   (exists d, d <> "" /\
      files empty_fs !! cacheName marshal_ints cached MethodGet "u" []
        = Some (Regular d) /\
      fst r = (d, None) /\
      count is_Curl (log (snd r)) = 0)).
Proof.
  apply (CurlGet_failure_is_final marshal_ints exits cached "u"
           [[("Accept", "*/*")]] (start empty_fs) "exit status 6").
  reflexivity.
Defined.

Lemma alternates_without_cache_skip_os_witness :
  (count is_os (log (snd (ChromeGet marshal_ints renders defaults "u"
                            (start three_entries)))) = 0 /\
   fs (snd (ChromeGet marshal_ints renders defaults "u" (start three_entries)))
     = three_entries /\
   count is_Chrome (log (snd (ChromeGet marshal_ints renders defaults "u"
                                (start three_entries)))) = 0 + 1)
  /\
  (count is_os (log (snd (CurlGet marshal_ints downloads defaults "u" []
                            (start three_entries)))) = 0 /\
   fs (snd (CurlGet marshal_ints downloads defaults "u" [] (start three_entries)))
     = three_entries /\
   count is_Curl (log (snd (CurlGet marshal_ints downloads defaults "u" []
                              (start three_entries)))) = 0 + 1).
Proof.
  apply (alternates_without_cache_skip_os marshal_ints renders downloads
           defaults "u" [] (start three_entries)).
  reflexivity.
Defined.

Lemma RemoveCache_touches_only_its_key_witness :
  files (fs (snd (RemoveCache marshal_ints cached "u" (start three_entries))))
    !! key_u_post = files three_entries !! key_u_post /\
  readonly (fs (snd (RemoveCache marshal_ints cached "u" (start three_entries))))
    = false.
Proof.
  apply (RemoveCache_touches_only_its_key marshal_ints cached "u"
           (start three_entries) key_u_post).
  vm_compute. discriminate.
Defined.

Lemma RemoveCache_twice_witness :
  let w1 := snd (RemoveCache marshal_ints cached "u" (start three_entries)) in
  fst (RemoveCache marshal_ints cached "u" w1) = None /\
  count is_Remove (log (snd (RemoveCache marshal_ints cached "u" w1)))
    = count is_Remove (log w1) /\
  fs (snd (RemoveCache marshal_ints cached "u" w1)) = fs w1.
Proof.
  apply (RemoveCache_twice marshal_ints cached "u" (start three_entries)).
  - vm_compute. reflexivity.
  - reflexivity.
Defined.

Lemma BatchGet_indices_witness :
  dom (fst (fst (fst (BatchGet marshal_ints u2_down defaults [1; 0; 2]
                        ["a"; "u2"; "c"] [] (start empty_fs)))))
  = list_to_set (Z.of_nat <$> seq 0 3).
Proof.
  apply (BatchGet_indices marshal_ints u2_down defaults [1; 0; 2]
           ["a"; "u2"; "c"] [] (start empty_fs)).
  cbn [length seq]. apply perm_swap.
Defined.


Lemma Download_stores_any_status_witness :
  let r := Func.Download serves404 "u" "out" (holding "out" "old") in
  fst r = None /\
  files (snd r) !! "out" = Some (Regular "not found") /\
  forall other, other <> "out" ->
    files (snd r) !! other = files (holding "out" "old") !! other.
Proof.
  apply (Download_stores_any_status serves404 "u" "out" (holding "out" "old")
           404 "not found").
  - reflexivity.
  - reflexivity.
  - vm_compute. discriminate.
Defined.

Lemma Download_broken_copy_witness :
  let r := Func.Download drops "u" "out" (holding "out" "old") in
  fst r = Some (Func.CopyError "unexpected EOF") /\
  files (snd r) !! "out" = Some (Regular "par") /\
  forall other, other <> "out" ->
    files (snd r) !! other = files (holding "out" "old") !! other.
Proof.
  apply (Download_broken_copy drops "u" "out" (holding "out" "old") 200 "par"
           "unexpected EOF").
  - reflexivity.
  - reflexivity.
  - vm_compute. discriminate.
Defined.

Lemma Download_fails_before_create_witness :
  fst (Func.Download down "u" "out" (holding "out" "old")) <> None /\
  snd (Func.Download down "u" "out" (holding "out" "old")) = holding "out" "old".
Proof.
  apply (Download_fails_before_create down "u" "out" (holding "out" "old")).
  left. exists "no route to host". reflexivity.
Defined.
